(** * QR check-in page: validate, guard, commit

    A shallow embedding of the check-in page ([CheckInPage], the component that
    owns the camera reader, the decode callback and the two-step
    validate / check-in round trip) and of the API client it calls
    ([src/lib/api.ts]).

    The component is event driven.  Its state is the React state of the
    page together with the part of the environment the page talks to: the
    QR readers it created, the requests it sent, the toasts it raised and
    the async functions suspended at an [await].  Every handler of the page
    is a function on that state; an [Action] is one turn of the event loop. *)

From Stdlib Require Import String Ascii List Bool Arith NArith Lia.
From Stdlib Require Import DecimalString DecimalPos DecimalN.
Import ListNotations.
Local Open Scope string_scope.
Local Open Scope list_scope.
Local Open Scope nat_scope.

(** ** JavaScript values *)

(** Truthiness of a string: only the empty string is falsy. *)
Definition truthy (s : string) : bool := negb (s =? "")%string.

(** Truthiness of an optional boolean property ([undefined] is falsy). *)
Definition truthyFlag (b : option bool) : bool :=
  match b with
  | Some true => true
  | _ => false
  end.

(** [m || d] for an optional string property [m]. *)
Definition orElse (m : option string) (d : string) : string :=
  match m with
  | Some s => if truthy s then s else d
  | None => d
  end.

(** [s.includes(sub)]. *)
Fixpoint includes (s sub : string) : bool :=
  prefix sub s ||
  match s with
  | EmptyString => false
  | String _ rest => includes rest sub
  end.

(** [String.prototype.toLowerCase] and [String.prototype.trim] are taken as
    an interface: the page's logic is the same for every implementation. *)
Class StringOps := {
  toLowerCase : string -> string;
  trim : string -> string
}.

(** An ASCII implementation, used to run the model on concrete inputs. *)
Definition asciiLower (c : ascii) : ascii :=
  let n := nat_of_ascii c in
  if (65 <=? n) && (n <=? 90) then ascii_of_nat (n + 32) else c.

Fixpoint lowerAscii (s : string) : string :=
  match s with
  | EmptyString => EmptyString
  | String c rest => String (asciiLower c) (lowerAscii rest)
  end.

Definition isSpace (c : ascii) : bool :=
  let n := nat_of_ascii c in
  (n =? 32) || ((9 <=? n) && (n <=? 13)).

Fixpoint trimStart (s : string) : string :=
  match s with
  | EmptyString => EmptyString
  | String c rest => if isSpace c then trimStart rest else s
  end.

Fixpoint trimEnd (s : string) : string :=
  match s with
  | EmptyString => EmptyString
  | String c rest =>
      match trimEnd rest with
      | EmptyString => if isSpace c then EmptyString else String c EmptyString
      | kept => String c kept
      end
  end.

#[export] Instance asciiOps : StringOps := {
  toLowerCase := lowerAscii;
  trim := fun s => trimEnd (trimStart s)
}.

(** ** Data ([src/lib/types], [CheckInResult]) *)

Inductive AttendeeStatus := CONFIRMED | WAITLISTED | CANCELLED.

(** The fields of [Event] the page's logic reads. *)
Record Event := {
  id : string;
  eventName : string
}.

(** [Attendee] as the check-in endpoints return it; the fields that are only
    displayed are kept as plain strings. *)
Record Attendee := {
  name : string;
  company : string;
  title : string;
  email : string;
  attendeeStatus : AttendeeStatus;
  registrationId : string;
  eventId : string;
  checkedInAt : option string;
  alreadyCheckedIn : option bool
}.

Record CheckInResult := {
  valid : option bool;
  success : option bool;
  attendee : option Attendee;
  message : option string
}.

(** ** API client ([src/lib/api.ts]) *)

(** What a [throw] can carry: an [APIError], another [Error], a value that
    is neither an [Error] nor nullish (with its [message] property when it
    has one), or [null] / [undefined]. *)
Inductive Thrown :=
| APIError (statusCode : N) (text : string)
| JsError (text : string)
| NonError (text : option string)
| Nullish.

(** The [TypeError] raised by reading a property of [null] or [undefined]
    (the wording is the engine's). *)
Definition nullishRead : Thrown :=
  JsError "Cannot read properties of null (reading 'message')".

(** [err.message] read through [any]: the read itself throws on [null] and
    [undefined]. *)
Definition thrownMessage (e : Thrown) : Thrown + option string :=
  match e with
  | APIError _ m => inr (Some m)
  | JsError m => inr (Some m)
  | NonError m => inr m
  | Nullish => inl nullishRead
  end.

(** An HTTP response.  [json] is what [response.json()] resolves to, [None]
    when it rejects (then with a [SyntaxError] whose message is
    [jsonError]). *)
Record Response := {
  ok : bool;
  status : N;
  statusText : string;
  contentType : option string;
  json : option CheckInResult;
  jsonError : string;
  body : string
}.

(** The value an API helper resolves to: parsed JSON, or
    [response.text() as any]. *)
Inductive Payload :=
| Json (v : CheckInResult)
| Text (s : string).

Definition showStatus (n : N) : string := NilZero.string_of_uint (N.to_uint n).

(** [handleResponse].  On a 401 the source also clears the stored session
    and redirects to the login page before throwing; that is outside the
    page's state and is left out. *)
Definition handleResponse (response : Response) : Thrown + Payload :=
  let isJson :=
    match contentType response with
    | Some c => includes c "application/json"
    | None => false
    end in
  if negb (ok response) then
    let errorMessage :=
      ("HTTP " ++ showStatus (status response) ++ ": " ++ statusText response)%string in
    let errorMessage :=
      if isJson then
        match json response with
        | Some errorData => orElse (message errorData) errorMessage
        | None => errorMessage
        end
      else errorMessage in
    inl (APIError (status response) errorMessage)
  else if isJson then
    match json response with
    | Some v => inr (Json v)
    | None => inl (JsError (jsonError response))
    end
  else inr (Text (body response)).

(** How [fetch] settles. *)
Inductive FetchOutcome :=
| NetworkFailure
| Responded (response : Response).

(** [request]: a rejected [fetch] is caught and rethrown as
    [APIError(0, 'Network error...')]; [handleResponse] is returned without
    [await], so what it throws passes through unchanged. *)
Definition request (f : FetchOutcome) : Thrown + Payload :=
  match f with
  | NetworkFailure => inl (APIError 0 "Network error. Please check your connection.")
  | Responded response => handleResponse response
  end.

(** Property reads on the resolved value: a text payload is a string
    primitive, on which every property of [CheckInResult] is [undefined]. *)
Definition asResult (p : Payload) : CheckInResult :=
  match p with
  | Json v => v
  | Text _ => {| valid := None; success := None; attendee := None; message := None |}
  end.

(** The settled promise of [api.get<CheckInResult>] / [api.post<CheckInResult>]. *)
Definition settled (f : FetchOutcome) : Thrown + CheckInResult :=
  match request f with
  | inl e => inl e
  | inr p => inr (asResult p)
  end.

Definition getErrorMessage (error : Thrown) : string :=
  match error with
  | APIError statusCode text =>
      if (statusCode =? 400)%N then
        orElse (Some text) "Invalid request. Please check your input."
      else if (statusCode =? 401)%N then
        orElse (Some text) "Authentication failed. Please log in again."
      else if (statusCode =? 403)%N then
        "You don't have permission to perform this action."
      else if (statusCode =? 404)%N then "Resource not found."
      else if (statusCode =? 500)%N then "Server error. Please try again later."
      else orElse (Some text) "An unexpected error occurred."
  | JsError text => text
  | NonError _ | Nullish => "An unexpected error occurred."
  end.

(** ** The page's state *)

Inductive ToastType := ToastSuccess | ToastError | ToastWarning | ToastInfo.

Inductive ApiCall :=
| GET (endpoint : string)
| POST (endpoint : string).

Definition validateEndpoint (qrCode : string) : string := ("/qr/validate/" ++ qrCode)%string.
Definition checkInEndpoint (qrCode : string) : string := ("/qr/check-in/" ++ qrCode)%string.

(** A video input device as [listVideoInputDevices] reports it. *)
Record MediaDeviceInfo := {
  deviceId : string;
  label : string
}.

(** A running [decodeFromVideoDevice]: the reader, the device it opened and
    the [selectedEvent] its callback closes over. *)
Record Subscription := {
  reader : nat;
  device : string;
  sessionEvent : string
}.

(** An async function of the page suspended at an [await]. *)
Inductive Task :=
| AwaitEvents
| AwaitDevices (codeReader : nat) (sessionEvent : string)
| AwaitValidate (qrCode : string) (sessionEvent : string)
| AwaitCheckIn (qrCode : string).

Record State := {
  (* useState *)
  scanning : bool;
  scanningQueued : option bool;
  result : option CheckInResult;
  manualCode : string;
  loading : bool;
  events : list Event;
  selectedEvent : string;
  cameraError : option string;
  toasts : list (ToastType * string);
  (* useRef *)
  codeReaderRef : option nat;
  (* environment *)
  nextReader : nat;
  decoding : list Subscription;
  resets : list nat;
  apiLog : list ApiCall;
  tasks : list Task;
  uncaught : list Thrown
}.

(** [setScanning(v)]: the update is queued until the next render. *)
Definition setScanning (v : bool) (st : State) : State :=
  {| scanning := scanning st;
     scanningQueued := Some v;
     result := result st;
     manualCode := manualCode st;
     loading := loading st;
     events := events st;
     selectedEvent := selectedEvent st;
     cameraError := cameraError st;
     toasts := toasts st;
     codeReaderRef := codeReaderRef st;
     nextReader := nextReader st;
     decoding := decoding st;
     resets := resets st;
     apiLog := apiLog st;
     tasks := tasks st;
     uncaught := uncaught st |}.

(** The render that applies the queued [scanning] update. *)
Definition commitScanning (v : bool) (st : State) : State :=
  {| scanning := v;
     scanningQueued := None;
     result := result st;
     manualCode := manualCode st;
     loading := loading st;
     events := events st;
     selectedEvent := selectedEvent st;
     cameraError := cameraError st;
     toasts := toasts st;
     codeReaderRef := codeReaderRef st;
     nextReader := nextReader st;
     decoding := decoding st;
     resets := resets st;
     apiLog := apiLog st;
     tasks := tasks st;
     uncaught := uncaught st |}.

(** [setResult(r)]. *)
Definition setResult (r : option CheckInResult) (st : State) : State :=
  {| scanning := scanning st;
     scanningQueued := scanningQueued st;
     result := r;
     manualCode := manualCode st;
     loading := loading st;
     events := events st;
     selectedEvent := selectedEvent st;
     cameraError := cameraError st;
     toasts := toasts st;
     codeReaderRef := codeReaderRef st;
     nextReader := nextReader st;
     decoding := decoding st;
     resets := resets st;
     apiLog := apiLog st;
     tasks := tasks st;
     uncaught := uncaught st |}.

(** [setManualCode(s)]. *)
Definition setManualCode (s : string) (st : State) : State :=
  {| scanning := scanning st;
     scanningQueued := scanningQueued st;
     result := result st;
     manualCode := s;
     loading := loading st;
     events := events st;
     selectedEvent := selectedEvent st;
     cameraError := cameraError st;
     toasts := toasts st;
     codeReaderRef := codeReaderRef st;
     nextReader := nextReader st;
     decoding := decoding st;
     resets := resets st;
     apiLog := apiLog st;
     tasks := tasks st;
     uncaught := uncaught st |}.

(** [setLoading(v)]. *)
Definition setLoading (v : bool) (st : State) : State :=
  {| scanning := scanning st;
     scanningQueued := scanningQueued st;
     result := result st;
     manualCode := manualCode st;
     loading := v;
     events := events st;
     selectedEvent := selectedEvent st;
     cameraError := cameraError st;
     toasts := toasts st;
     codeReaderRef := codeReaderRef st;
     nextReader := nextReader st;
     decoding := decoding st;
     resets := resets st;
     apiLog := apiLog st;
     tasks := tasks st;
     uncaught := uncaught st |}.

(** [setEvents(es)]. *)
Definition setEvents (es : list Event) (st : State) : State :=
  {| scanning := scanning st;
     scanningQueued := scanningQueued st;
     result := result st;
     manualCode := manualCode st;
     loading := loading st;
     events := es;
     selectedEvent := selectedEvent st;
     cameraError := cameraError st;
     toasts := toasts st;
     codeReaderRef := codeReaderRef st;
     nextReader := nextReader st;
     decoding := decoding st;
     resets := resets st;
     apiLog := apiLog st;
     tasks := tasks st;
     uncaught := uncaught st |}.

(** [setSelectedEvent(e)]. *)
Definition setSelectedEvent (e : string) (st : State) : State :=
  {| scanning := scanning st;
     scanningQueued := scanningQueued st;
     result := result st;
     manualCode := manualCode st;
     loading := loading st;
     events := events st;
     selectedEvent := e;
     cameraError := cameraError st;
     toasts := toasts st;
     codeReaderRef := codeReaderRef st;
     nextReader := nextReader st;
     decoding := decoding st;
     resets := resets st;
     apiLog := apiLog st;
     tasks := tasks st;
     uncaught := uncaught st |}.

(** [setCameraError(e)]. *)
Definition setCameraError (e : option string) (st : State) : State :=
  {| scanning := scanning st;
     scanningQueued := scanningQueued st;
     result := result st;
     manualCode := manualCode st;
     loading := loading st;
     events := events st;
     selectedEvent := selectedEvent st;
     cameraError := e;
     toasts := toasts st;
     codeReaderRef := codeReaderRef st;
     nextReader := nextReader st;
     decoding := decoding st;
     resets := resets st;
     apiLog := apiLog st;
     tasks := tasks st;
     uncaught := uncaught st |}.

(** [showToast(type, title)] of useToast: the toast is appended. *)
Definition showToast (type : ToastType) (title : string) (st : State) : State :=
  {| scanning := scanning st;
     scanningQueued := scanningQueued st;
     result := result st;
     manualCode := manualCode st;
     loading := loading st;
     events := events st;
     selectedEvent := selectedEvent st;
     cameraError := cameraError st;
     toasts := toasts st ++ [(type, title)];
     codeReaderRef := codeReaderRef st;
     nextReader := nextReader st;
     decoding := decoding st;
     resets := resets st;
     apiLog := apiLog st;
     tasks := tasks st;
     uncaught := uncaught st |}.

(** [codeReaderRef.current = new BrowserQRCodeReader()]: a fresh reader. *)
Definition newReader  (st : State) : State :=
  {| scanning := scanning st;
     scanningQueued := scanningQueued st;
     result := result st;
     manualCode := manualCode st;
     loading := loading st;
     events := events st;
     selectedEvent := selectedEvent st;
     cameraError := cameraError st;
     toasts := toasts st;
     codeReaderRef := Some (nextReader st);
     nextReader := S (nextReader st);
     decoding := decoding st;
     resets := resets st;
     apiLog := apiLog st;
     tasks := tasks st;
     uncaught := uncaught st |}.

(** [codeReaderRef.current = null]. *)
Definition clearReaderRef  (st : State) : State :=
  {| scanning := scanning st;
     scanningQueued := scanningQueued st;
     result := result st;
     manualCode := manualCode st;
     loading := loading st;
     events := events st;
     selectedEvent := selectedEvent st;
     cameraError := cameraError st;
     toasts := toasts st;
     codeReaderRef := None;
     nextReader := nextReader st;
     decoding := decoding st;
     resets := resets st;
     apiLog := apiLog st;
     tasks := tasks st;
     uncaught := uncaught st |}.

(** [codeReader.decodeFromVideoDevice(selectedDeviceId, video, callback)]: the
    reader starts delivering decode callbacks; the callback closes over the
    [selectedEvent] of the render that started the scan.  The page drops the
    promise the call returns; its rejection is the action [OpenFailed]. *)
Definition decodeFromVideoDevice (codeReader : nat) (selectedDeviceId sessionEvent : string) (st : State) : State :=
  {| scanning := scanning st;
     scanningQueued := scanningQueued st;
     result := result st;
     manualCode := manualCode st;
     loading := loading st;
     events := events st;
     selectedEvent := selectedEvent st;
     cameraError := cameraError st;
     toasts := toasts st;
     codeReaderRef := codeReaderRef st;
     nextReader := nextReader st;
     decoding := decoding st ++ [{| reader := codeReader; device := selectedDeviceId; sessionEvent := sessionEvent |}];
     resets := resets st;
     apiLog := apiLog st;
     tasks := tasks st;
     uncaught := uncaught st |}.

(** [codeReader.reset()]: the reader stops decoding and releases the camera. *)
Definition reset (codeReader : nat) (st : State) : State :=
  {| scanning := scanning st;
     scanningQueued := scanningQueued st;
     result := result st;
     manualCode := manualCode st;
     loading := loading st;
     events := events st;
     selectedEvent := selectedEvent st;
     cameraError := cameraError st;
     toasts := toasts st;
     codeReaderRef := codeReaderRef st;
     nextReader := nextReader st;
     decoding := filter (fun s => negb (reader s =? codeReader)) (decoding st);
     resets := resets st ++ [codeReader];
     apiLog := apiLog st;
     tasks := tasks st;
     uncaught := uncaught st |}.

(** The request leaves the client as soon as [api.get]/[api.post] is called. *)
Definition callApi (c : ApiCall) (st : State) : State :=
  {| scanning := scanning st;
     scanningQueued := scanningQueued st;
     result := result st;
     manualCode := manualCode st;
     loading := loading st;
     events := events st;
     selectedEvent := selectedEvent st;
     cameraError := cameraError st;
     toasts := toasts st;
     codeReaderRef := codeReaderRef st;
     nextReader := nextReader st;
     decoding := decoding st;
     resets := resets st;
     apiLog := apiLog st ++ [c];
     tasks := tasks st;
     uncaught := uncaught st |}.

(** Bookkeeping of the suspended async functions. *)
Definition setTasks (ts : list Task) (st : State) : State :=
  {| scanning := scanning st;
     scanningQueued := scanningQueued st;
     result := result st;
     manualCode := manualCode st;
     loading := loading st;
     events := events st;
     selectedEvent := selectedEvent st;
     cameraError := cameraError st;
     toasts := toasts st;
     codeReaderRef := codeReaderRef st;
     nextReader := nextReader st;
     decoding := decoding st;
     resets := resets st;
     apiLog := apiLog st;
     tasks := ts;
     uncaught := uncaught st |}.

(** An exception that leaves an async function of the page uncaught. *)
Definition unhandled (e : Thrown) (st : State) : State :=
  {| scanning := scanning st;
     scanningQueued := scanningQueued st;
     result := result st;
     manualCode := manualCode st;
     loading := loading st;
     events := events st;
     selectedEvent := selectedEvent st;
     cameraError := cameraError st;
     toasts := toasts st;
     codeReaderRef := codeReaderRef st;
     nextReader := nextReader st;
     decoding := decoding st;
     resets := resets st;
     apiLog := apiLog st;
     tasks := tasks st;
     uncaught := uncaught st ++ [e] |}.

(** The reader stops delivering callbacks without being reset. *)
Definition stopDecoding (codeReader : nat) (st : State) : State :=
  {| scanning := scanning st;
     scanningQueued := scanningQueued st;
     result := result st;
     manualCode := manualCode st;
     loading := loading st;
     events := events st;
     selectedEvent := selectedEvent st;
     cameraError := cameraError st;
     toasts := toasts st;
     codeReaderRef := codeReaderRef st;
     nextReader := nextReader st;
     decoding := filter (fun s => negb (reader s =? codeReader)) (decoding st);
     resets := resets st;
     apiLog := apiLog st;
     tasks := tasks st;
     uncaught := uncaught st |}.

(** How a stretch of an async function ends: it returns, it suspends at the
    next [await], or it throws. *)
Inductive Completion :=
| Done (st : State)
| Await (t : Task) (st : State)
| Raise (e : Thrown) (st : State).

(** ** Handlers of the page *)

Definition successToast (title : string) : State -> State := showToast ToastSuccess title.
Definition showError (title : string) : State -> State := showToast ToastError title.

(** [videoRef.current]: the video element is mounted exactly when the last
    render had [scanning] set. *)
Definition videoRef_current (st : State) : bool := scanning st.

Definition spawn (t : Task) (st : State) : State := setTasks (tasks st ++ [t]) st.

(** *** fetchEvents *)

Definition fetchEvents (st : State) : State :=
  spawn AwaitEvents (callApi (GET "/event") st).

Definition fetchEvents_resume (outcome : Thrown + list Event) (st : State) : Completion :=
  match outcome with
  | inr eventsData =>
      let st := setEvents eventsData st in
      match eventsData with
      | first :: _ => Done (setSelectedEvent (id first) st)
      | [] => Done st
      end
  | inl _ => Done (showError "Failed to load events" st)
  end.

(** *** stopScanning *)

Definition stopScanning (st : State) : State :=
  match codeReaderRef st with
  | Some codeReader => clearReaderRef (reset codeReader st)
  | None => st
  end.

(** *** validateAndCheckIn *)

(** The [catch] and [finally] blocks. *)
Definition validate_catch (err : Thrown) (st : State) : State :=
  let errorMsg := getErrorMessage err in
  showError errorMsg
    (setResult (Some {| valid := Some false; success := None;
                        attendee := None; message := Some errorMsg |}) st).

Definition validate_finally (st : State) : State := setLoading false st.

Definition tryCatchFinally (c : Completion) : Completion :=
  match c with
  | Done st => Done (validate_finally st)
  | Raise err st => Done (validate_finally (validate_catch err st))
  | Await t st => Await t st
  end.

(** Up to the first [await]: the guard, [setLoading(true)], and the validate
    request.  [selectedEvent] is the value the enclosing closure captured. *)
Definition validateAndCheckIn (selectedEvent qrCode : string) (st : State) : State :=
  if negb (truthy qrCode) || negb (truthy selectedEvent) then st
  else
    spawn (AwaitValidate qrCode selectedEvent)
      (callApi (GET (validateEndpoint qrCode)) (setLoading true st)).

(** The [try] block from the validate response to the check-in request.
    The first [match] is [!validateResponse.valid || !validateResponse.attendee]. *)
Definition validate_body (selectedEvent qrCode : string)
    (outcome : Thrown + CheckInResult) (st : State) : Completion :=
  match outcome with
  | inl err => Raise err st
  | inr validateResponse =>
      match (if truthyFlag (valid validateResponse)
             then attendee validateResponse else None) with
      | None =>
          Done (showError "Invalid QR code"
                  (setResult (Some {| valid := Some false; success := None;
                                      attendee := None;
                                      message := Some (orElse (message validateResponse)
                                                              "Invalid QR code") |}) st))
      | Some a =>
          if negb (eventId a =? selectedEvent)%string then
            Done (showError "Wrong event"
                    (setResult (Some {| valid := Some false; success := None;
                                        attendee := None;
                                        message := Some "This QR code is for a different event" |}) st))
          else if truthyFlag (alreadyCheckedIn a) then
            Done (showError "Already checked in"
                    (setResult (Some {| valid := Some true; success := None;
                                        attendee := Some a;
                                        message := Some "Already checked in" |}) st))
          else
            Await (AwaitCheckIn qrCode) (callApi (POST (checkInEndpoint qrCode)) st)
      end
  end.

(** The [try] block from the check-in response to its end. *)
Definition checkIn_body (outcome : Thrown + CheckInResult) (st : State) : Completion :=
  match outcome with
  | inl err => Raise err st
  | inr checkInResponse =>
      if negb (truthyFlag (success checkInResponse)) then
        Done (showError (orElse (message checkInResponse) "Check-in failed")
                (setResult (Some {| valid := Some false; success := None;
                                    attendee := None;
                                    message := Some (orElse (message checkInResponse)
                                                            "Check-in failed") |}) st))
      else
        Done (successToast "Check-in successful!"
                (setResult (Some {| valid := Some true; success := None;
                                    attendee := attendee checkInResponse;
                                    message := None |}) st))
  end.

Definition validate_resume (selectedEvent qrCode : string)
    (outcome : Thrown + CheckInResult) (st : State) : Completion :=
  tryCatchFinally (validate_body selectedEvent qrCode outcome st).

Definition checkIn_resume (outcome : Thrown + CheckInResult) (st : State) : Completion :=
  tryCatchFinally (checkIn_body outcome st).

(** *** startScanning *)

Section WithStringOps.
Context {ops : StringOps}.

Definition isBackCamera (d : MediaDeviceInfo) : bool :=
  includes (toLowerCase (label d)) "back" ||
  includes (toLowerCase (label d)) "environment" ||
  includes (toLowerCase (label d)) "rear".

(** The device choice of [startScanning]: [None] is the
    [videoInputDevices.length === 0] exit. *)
Definition selectDevice (videoInputDevices : list MediaDeviceInfo) : option string :=
  match videoInputDevices with
  | [] => None
  | first :: _ =>
      let selectedDeviceId := deviceId first in
      match find isBackCamera videoInputDevices with
      | Some backCamera => Some (deviceId backCamera)
      | None =>
          if 1 <? length videoInputDevices then
            Some (deviceId (nth (length videoInputDevices - 1) videoInputDevices first))
          else Some selectedDeviceId
      end
  end.

(** The callback given to [decodeFromVideoDevice].  [text] is
    [result.getText()] when a result is delivered; the [error] argument is
    only logged. *)
Definition decodeCallback (sessionEvent : string) (text : option string) (st : State) : State :=
  match text with
  | Some qrCode =>
      if truthy qrCode then validateAndCheckIn sessionEvent qrCode (setScanning false st)
      else st
  | None => st
  end.

(** Up to [await codeReader.listVideoInputDevices()]. *)
Definition startScanning (st : State) : State :=
  let st := setCameraError None st in
  let codeReader := nextReader st in
  spawn (AwaitDevices codeReader (selectedEvent st)) (newReader st).

(** The [catch] block.  Its first statement reads [err.message]; when that
    read throws, nothing has been set and the exception leaves
    [startScanning]. *)
Definition startScanning_catch (err : Thrown) (st : State) : Completion :=
  match thrownMessage err with
  | inl typeError => Raise typeError st
  | inr m =>
      Done (showError "Camera access denied"
              (setScanning false
                 (setCameraError (Some (orElse m "Failed to access camera")) st)))
  end.

Definition startScanning_body (codeReader : nat) (sessionEvent : string)
    (outcome : Thrown + list MediaDeviceInfo) (st : State) : Completion :=
  match outcome with
  | inl err => Raise err st
  | inr videoInputDevices =>
      match selectDevice videoInputDevices with
      | None => Done (setScanning false (setCameraError (Some "No camera found") st))
      | Some selectedDeviceId =>
          if videoRef_current st then
            Done (decodeFromVideoDevice codeReader selectedDeviceId sessionEvent st)
          else Done st
      end
  end.

Definition startScanning_resume (codeReader : nat) (sessionEvent : string)
    (outcome : Thrown + list MediaDeviceInfo) (st : State) : Completion :=
  match startScanning_body codeReader sessionEvent outcome st with
  | Raise err st => startScanning_catch err st
  | c => c
  end.

(** The promise [decodeFromVideoDevice] returned is rejected: the camera
    could not be opened.  The page neither awaits nor catches that promise,
    so the rejection is unhandled; the reader delivers no callback. *)
Definition openFailed (codeReader : nat) (err : Thrown) (st : State) : State :=
  unhandled err (stopDecoding codeReader st).

(** *** handleManualSubmit, resetScanner *)

Definition handleManualSubmit (st : State) : State :=
  if truthy (trim (manualCode st)) then
    setManualCode "" (validateAndCheckIn (selectedEvent st) (trim (manualCode st)) st)
  else st.

Definition resetScanner (st : State) : State :=
  setManualCode "" (setResult None st).

(** ** The event loop *)

(** A render that applies the queued [scanning] update, followed by the
    effect on [scanning] when the value changed: [startScanning] when it
    became true, [stopScanning] when it became false.  The other pieces of
    state have no effect attached and are written through at once. *)
Definition flush (st : State) : State :=
  match scanningQueued st with
  | None => st
  | Some v =>
      let st' := commitScanning v st in
      if Bool.eqb v (scanning st) then st'
      else if v then startScanning st' else stopScanning st'
  end.

(** One turn of the event loop: a user's action on a control the page
    renders, a render, a decode callback of a reader, the rejection of the
    promise [decodeFromVideoDevice] returned, or the settlement of the
    promise the [k]-th suspended function awaits. *)
Inductive Action :=
(* the user *)
| ClickStartScanning
| ClickStopScanning
| ClickScanNext
| SelectEvent (e : string)
| TypeManualCode (s : string)
| SubmitManual
| Unmount
(* React *)
| Flush
(* the environment *)
| Decoded (codeReader : nat) (text : option string)
| OpenFailed (codeReader : nat) (err : Thrown)
| EventsSettled (k : nat) (outcome : Thrown + list Event)
| DevicesSettled (k : nat) (outcome : Thrown + list MediaDeviceInfo)
| ApiSettled (k : nat) (f : FetchOutcome).

(** Removal and replacement of the [k]-th suspended function. *)
Fixpoint dropNth {A} (k : nat) (l : list A) : list A :=
  match l, k with
  | [], _ => []
  | _ :: rest, 0 => rest
  | x :: rest, S k' => x :: dropNth k' rest
  end.

Fixpoint putNth {A} (k : nat) (y : A) (l : list A) : list A :=
  match l, k with
  | [], _ => []
  | _ :: rest, 0 => y :: rest
  | x :: rest, S k' => x :: putNth k' y rest
  end.

(** The suspended function [k] ran up to its next suspension or its end. *)
Definition finish (k : nat) (c : Completion) : State :=
  match c with
  | Done st => setTasks (dropNth k (tasks st)) st
  | Await t st => setTasks (putNth k t (tasks st)) st
  | Raise e st => unhandled e (setTasks (dropNth k (tasks st)) st)
  end.

(** The idle screen and the manual-entry form are rendered when
    [!scanning && !result]. *)
Definition formVisible (st : State) : bool :=
  negb (scanning st) && match result st with None => true | Some _ => false end.

(** The handler an action runs.  A control that is not rendered, or a
    disabled submit button ([!manualCode.trim() || loading]), runs nothing;
    a reader delivers callbacks, or fails to open the camera, only after
    [decodeFromVideoDevice] was called on it and before it is reset; a
    settlement that finds no function suspended on it does nothing. *)
Definition step (a : Action) (st : State) : State :=
  match a with
  | ClickStartScanning => if formVisible st then setScanning true st else st
  | ClickStopScanning => if scanning st then setScanning false st else st
  | ClickScanNext =>
      match result st with
      | Some _ => resetScanner st
      | None => st
      end
  | SelectEvent e => setSelectedEvent e st
  | TypeManualCode s => if formVisible st then setManualCode s st else st
  | SubmitManual =>
      if formVisible st && truthy (trim (manualCode st)) && negb (loading st)
      then handleManualSubmit st else st
  | Unmount => stopScanning st
  | Flush => flush st
  | Decoded codeReader text =>
      match find (fun s => reader s =? codeReader) (decoding st) with
      | Some s => decodeCallback (sessionEvent s) text st
      | None => st
      end
  | OpenFailed codeReader err =>
      match find (fun s => reader s =? codeReader) (decoding st) with
      | Some _ => openFailed codeReader err st
      | None => st
      end
  | EventsSettled k outcome =>
      match nth_error (tasks st) k with
      | Some AwaitEvents => finish k (fetchEvents_resume outcome st)
      | _ => st
      end
  | DevicesSettled k outcome =>
      match nth_error (tasks st) k with
      | Some (AwaitDevices codeReader e) =>
          finish k (startScanning_resume codeReader e outcome st)
      | _ => st
      end
  | ApiSettled k f =>
      match nth_error (tasks st) k with
      | Some (AwaitValidate qrCode e) => finish k (validate_resume e qrCode (settled f) st)
      | Some (AwaitCheckIn qrCode) => finish k (checkIn_resume (settled f) st)
      | _ => st
      end
  end.

Definition run (actions : list Action) (st : State) : State :=
  fold_left (fun st a => step a st) actions st.

(** One whole check-in attempt for a code: [validateAndCheckIn] is called,
    its validate request settles with [validateFetch] and, when the function
    went on to the check-in request, that one settles with [checkInFetch]. *)
Definition attempt (selectedEvent qrCode : string)
    (validateFetch checkInFetch : FetchOutcome) (st : State) : State :=
  let k := length (tasks st) in
  run [ApiSettled k validateFetch; ApiSettled k checkInFetch]
    (validateAndCheckIn selectedEvent qrCode st).

End WithStringOps.

(** The page before its first render, and after mounting: the mount effect
    calls [fetchEvents], the effect on [scanning] calls [stopScanning]. *)
Definition initial : State :=
  {| scanning := false; scanningQueued := None; result := None; manualCode := "";
     loading := false; events := []; selectedEvent := ""; cameraError := None;
     toasts := []; codeReaderRef := None; nextReader := 0; decoding := [];
     resets := []; apiLog := []; tasks := []; uncaught := [] |}.

Definition mounted : State := stopScanning (fetchEvents initial).

Definition countIf {A} (p : A -> bool) (l : list A) : nat := length (filter p l).

Definition isValidate (c : ApiCall) : bool :=
  match c with
  | GET e => prefix "/qr/validate/" e
  | POST _ => false
  end.

Definition isCheckIn (c : ApiCall) : bool :=
  match c with
  | POST e => prefix "/qr/check-in/" e
  | GET _ => false
  end.


(** ** The device-selection rule, as the specification words it *)

(** [sub] occurs in [s]. *)
Definition contains (s sub : string) : Prop :=
  exists before after, s = (before ++ sub ++ after)%string.

Section DeviceRule.
Context {ops : StringOps}.

(** A label that contains, in any case, "back", "environment" or "rear". *)
Definition rearFacing (d : MediaDeviceInfo) : Prop :=
  contains (toLowerCase (label d)) "back" \/
  contains (toLowerCase (label d)) "environment" \/
  contains (toLowerCase (label d)) "rear".

(** No device: no camera found.  Otherwise the first device labelled
    "back", "environment" or "rear" (in any case); otherwise, with several
    devices, the last one enumerated; otherwise the only one. *)
Inductive DeviceChoice : list MediaDeviceInfo -> option string -> Prop :=
| NoCameraFound : DeviceChoice [] None
| LabeledRear (before : list MediaDeviceInfo) (d : MediaDeviceInfo)
    (after : list MediaDeviceInfo) :
    Forall (fun x => ~ rearFacing x) before ->
    rearFacing d ->
    DeviceChoice (before ++ d :: after) (Some (deviceId d))
| LastOfMany (before : list MediaDeviceInfo) (d : MediaDeviceInfo) :
    before <> [] ->
    Forall (fun x => ~ rearFacing x) (before ++ [d]) ->
    DeviceChoice (before ++ [d]) (Some (deviceId d))
| OnlyAvailable (d : MediaDeviceInfo) :
    ~ rearFacing d ->
    DeviceChoice [d] (Some (deviceId d)).

End DeviceRule.


(** ** Sample data *)

Definition okJson (r : CheckInResult) : FetchOutcome :=
  Responded {| ok := true; status := 200; statusText := "OK";
               contentType := Some "application/json; charset=utf-8";
               json := Some r; jsonError := ""; body := "" |}.

Definition sampleAttendee (e : string) (checkedIn : option bool) : Attendee :=
  {| name := "Ada Lovelace"; company := "Analytical Engines"; title := "Engineer";
     email := "ada@example.org"; attendeeStatus := CONFIRMED;
     registrationId := "REG-0001"; eventId := e;
     checkedInAt := None; alreadyCheckedIn := checkedIn |}.

Definition recognised (a : Attendee) : CheckInResult :=
  {| valid := Some true; success := None; attendee := Some a; message := None |}.

Definition committed (a : Attendee) : CheckInResult :=
  {| valid := None; success := Some true; attendee := Some a; message := None |}.

Definition camera (i l : string) : MediaDeviceInfo := {| deviceId := i; label := l |}.

Definition gala : Event := {| id := "E1"; eventName := "Gala" |}.

(** The page with event E1 loaded and selected, nothing else done. *)
Definition ready : State := run [EventsSettled 0 (inr [gala])] mounted.

(** The page scanning for event E1 on the rear camera. *)
Definition scanningE1 : State :=
  run [ClickStartScanning; Flush;
       DevicesSettled 0 (inr [camera "cam0" "Front Camera"; camera "cam1" "Back Camera"])] ready.

(** The state a stretch of an async function leaves behind. *)
Definition stateOf (c : Completion) : State :=
  match c with
  | Done st | Await _ st | Raise _ st => st
  end.

(** What the page knows and the environment records about the readers. *)
Definition readers (st : State) : option nat * nat * list nat :=
  (codeReaderRef st, nextReader st, resets st).

(** Readers are numbered in creation order; a reader that was reset is no
    longer referenced, and no reader is reset twice. *)
Definition ReadersWellFormed (st : State) : Prop :=
  NoDup (resets st) /\
  (forall r, In r (resets st) -> r < nextReader st) /\
  (forall r, codeReaderRef st = Some r -> r < nextReader st /\ ~ In r (resets st)).


(** ** Counting what is in flight *)

(** A suspended [validateAndCheckIn]. *)
Definition isChecking (t : Task) : bool :=
  match t with
  | AwaitValidate _ _ | AwaitCheckIn _ => true
  | AwaitEvents | AwaitDevices _ _ => false
  end.

(** A [validateAndCheckIn] for [qrCode] suspended at its validate request. *)
Definition awaitsValidate (qrCode : string) (t : Task) : bool :=
  match t with
  | AwaitValidate q _ => (q =? qrCode)%string
  | _ => false
  end.

(** The validate and the check-in request for one code. *)
Definition validatesCode (qrCode : string) (c : ApiCall) : bool :=
  match c with
  | GET e => (e =? validateEndpoint qrCode)%string
  | POST _ => false
  end.

Definition checksInCode (qrCode : string) (c : ApiCall) : bool :=
  match c with
  | POST e => (e =? checkInEndpoint qrCode)%string
  | GET _ => false
  end.

(** A turn of the event loop other than the two failures of the camera
    that the page does not handle: a camera that cannot be opened, and a
    device enumeration that throws [null] or [undefined]. *)
Definition cameraSafe (a : Action) : Prop :=
  match a with
  | OpenFailed _ _ => False
  | DevicesSettled _ (inl Nullish) => False
  | _ => True
  end.


(** A turn of the event loop that is not a decode callback. *)
Definition notDecoded (a : Action) : Prop :=
  match a with
  | Decoded _ _ => False
  | _ => True
  end.

(** What one turn of the event loop does to the requests sent, the
    suspended functions and [loading]: nothing; a validation starts; a device
    enumeration starts; a suspended function ends; a validation goes on to
    its check-in request. *)
Inductive Effect (a : Action) (st st' : State) : Prop :=
| Unchanged :
    apiLog st' = apiLog st -> tasks st' = tasks st -> loading st' = loading st ->
    Effect a st st'
| Started (qrCode e : string) :
    apiLog st' = apiLog st ++ [GET (validateEndpoint qrCode)] ->
    tasks st' = tasks st ++ [AwaitValidate qrCode e] ->
    loading st' = true ->
    (notDecoded a -> loading st = false) ->
    Effect a st st'
| Enumerating (codeReader : nat) (e : string) :
    apiLog st' = apiLog st ->
    tasks st' = tasks st ++ [AwaitDevices codeReader e] ->
    loading st' = loading st ->
    Effect a st st'
| Finished (k : nat) (t : Task) :
    nth_error (tasks st) k = Some t ->
    apiLog st' = apiLog st ->
    tasks st' = dropNth k (tasks st) ->
    loading st' = (if isChecking t then false else loading st) ->
    Effect a st st'
| Passed (k : nat) (qrCode e : string) :
    nth_error (tasks st) k = Some (AwaitValidate qrCode e) ->
    apiLog st' = apiLog st ++ [POST (checkInEndpoint qrCode)] ->
    tasks st' = putNth k (AwaitCheckIn qrCode) (tasks st) ->
    loading st' = loading st ->
    Effect a st st'.

(** ** Toasts ([src/lib/hooks/useToast.ts]) *)

Module UseToast.

Record ToastMessage := {
  id : string;
  type : ToastType;
  title : string;
  message : option string;
  duration : option N
}.

(** The module-level counter [toastId], shared by every component that uses
    the hook, and the [toasts] state of one of them. *)
Record Store := {
  toastId : N;
  toasts : list ToastMessage
}.

Definition empty : Store := {| toastId := 0; toasts := [] |}.

(** [++toastId] on a JavaScript number: exact below 2^53, where adding one
    is no longer representable and the counter stays put. *)
Definition increment (n : N) : N := if (n <? 2 ^ 53)%N then (n + 1)%N else n.

Definition decimal (n : N) : string := NilZero.string_of_uint (N.to_uint n).

Definition showToast (type : ToastType) (title : string) (message : option string)
    (duration : option N) (s : Store) : Store :=
  let n := increment (toastId s) in
  let newToast := {| id := ("toast-" ++ decimal n)%string; type := type; title := title;
                     message := message; duration := duration |} in
  {| toastId := n; toasts := toasts s ++ [newToast] |}.

Definition closeToast (i : string) (s : Store) : Store :=
  {| toastId := toastId s;
     toasts := filter (fun toast => negb (id toast =? i)%string) (toasts s) |}.

Definition success := showToast ToastSuccess.
Definition error := showToast ToastError.
Definition warning := showToast ToastWarning.
Definition info := showToast ToastInfo.

(** [showToast] called through the hook of another component: only the
    shared counter moves. *)
Definition showElsewhere (s : Store) : Store :=
  {| toastId := increment (toastId s); toasts := toasts s |}.

Inductive Op :=
| Show (type : ToastType) (title : string) (message : option string) (duration : option N)
| ShowElsewhere
| Close (i : string).

Definition perform (o : Op) (s : Store) : Store :=
  match o with
  | Show type title message duration => showToast type title message duration s
  | ShowElsewhere => showElsewhere s
  | Close i => closeToast i s
  end.

Definition run (ops : list Op) (s : Store) : Store :=
  fold_left (fun s o => perform o s) ops s.

(** Every toast carries an identifier issued by the counter so far, and no
    two toasts carry the same one. *)
Definition Issued (s : Store) : Prop :=
  exists numbers : list N,
    map id (toasts s) = map (fun k => ("toast-" ++ decimal k)%string) numbers /\
    NoDup numbers /\
    Forall (fun k => (k <= toastId s)%N) numbers.

End UseToast.

(** ** Route protection ([src/middleware.ts]) *)

Definition publicRoutes : list string := ["/login"].

Definition protectedRoutes : list string := ["/"; "/attendees"; "/invites"; "/analytics"].

Inductive MiddlewareResponse :=
| RedirectTo (pathname : string)
| NextResponse.

(** [middleware]: [pathname] is [request.nextUrl.pathname], [token] the
    value of the [auth_token] cookie when there is one.  The redirect URL is
    built on the request's own origin, so its path is what is kept. *)
Definition middleware (pathname : string) (token : option string) : MiddlewareResponse :=
  let isProtectedRoute :=
    existsb (fun route => (pathname =? route)%string || prefix (route ++ "/") pathname)
      protectedRoutes in
  let isPublicRoute := existsb (fun route => prefix route pathname) publicRoutes in
  let hasToken := match token with Some t => truthy t | None => false end in
  if isProtectedRoute && negb hasToken then RedirectTo "/login"
  else if isPublicRoute && hasToken && (pathname =? "/login")%string then RedirectTo "/"
  else NextResponse.

(** ** More sample data *)

Definition failedPage : Response :=
  {| ok := false; status := 503; statusText := "Service Unavailable";
     contentType := Some "text/html"; json := None;
     jsonError := "Unexpected token < in JSON at position 0";
     body := "<html>503</html>" |}.

Definition failedJson (code : N) (text : string) : Response :=
  {| ok := false; status := code; statusText := "Error";
     contentType := Some "application/json"; 
     json := Some {| valid := None; success := None; attendee := None;
                     message := Some text |};
     jsonError := ""; body := "" |}.

Definition sampleToasts : list UseToast.Op :=
  [UseToast.Show ToastError "Invalid QR code" None None;
   UseToast.ShowElsewhere;
   UseToast.Show ToastSuccess "Check-in successful!" None None;
   UseToast.Close "toast-1";
   UseToast.Show ToastError "Wrong event" None None].

(** The page showing the result of a code typed in while the network is
    down. *)
Definition shownFailure : State :=
  attempt "E1" "QR123" NetworkFailure NetworkFailure ready.


(** * Properties *)

(** ** Lists and strings *)

Lemma nth_error_snoc {A} (l : list A) (x : A) : nth_error (l ++ [x]) (length l) = Some x.
Proof. induction l as [|y l IH]; simpl; auto. Qed.

Lemma nth_error_end {A} (l : list A) : nth_error l (length l) = None.
Proof. induction l as [|y l IH]; simpl; auto. Qed.

Lemma dropNth_snoc {A} (l : list A) (x : A) : dropNth (length l) (l ++ [x]) = l.
Proof. induction l as [|y l IH]; simpl; [reflexivity | now rewrite IH]. Qed.

Lemma putNth_snoc {A} (l : list A) (x y : A) : putNth (length l) y (l ++ [x]) = l ++ [y].
Proof. induction l as [|z l IH]; simpl; [reflexivity | now rewrite IH]. Qed.

Lemma truthy_true (s : string) : s <> "" -> truthy s = true.
Proof.
  intro H. unfold truthy. apply negb_true_iff. now apply String.eqb_neq.
Qed.

Lemma truthy_false (s : string) : s = "" -> truthy s = false.
Proof. intros ->. reflexivity. Qed.

Lemma truthyFlag_true (b : option bool) : truthyFlag b = true <-> b = Some true.
Proof. destruct b as [[|]|]; simpl; split; congruence. Qed.

(** ** One check-in attempt, step by step *)

Section Attempt.
Context {ops : StringOps}.

Lemma step_validate_settled (k : nat) (f : FetchOutcome) (qrCode e : string) (st : State) :
  nth_error (tasks st) k = Some (AwaitValidate qrCode e) ->
  step (ApiSettled k f) st = finish k (validate_resume e qrCode (settled f) st).
Proof. intro H. cbn [step]. now rewrite H. Qed.

Lemma step_checkIn_settled (k : nat) (f : FetchOutcome) (qrCode : string) (st : State) :
  nth_error (tasks st) k = Some (AwaitCheckIn qrCode) ->
  step (ApiSettled k f) st = finish k (checkIn_resume (settled f) st).
Proof. intro H. cbn [step]. now rewrite H. Qed.

Lemma step_nothing_settled (k : nat) (f : FetchOutcome) (st : State) :
  nth_error (tasks st) k = None ->
  step (ApiSettled k f) st = st.
Proof. intro H. cbn [step]. now rewrite H. Qed.

(** With a code and an event, the attempt is the validate request followed
    by the two resumptions. *)
Lemma attempt_unfold (e qrCode : string) (vf cf : FetchOutcome) (st : State) :
  qrCode <> "" -> e <> "" ->
  attempt e qrCode vf cf st =
  step (ApiSettled (length (tasks st)) cf)
    (finish (length (tasks st))
       (validate_resume e qrCode (settled vf)
          (spawn (AwaitValidate qrCode e)
             (callApi (GET (validateEndpoint qrCode)) (setLoading true st))))).
Proof.
  intros Hq He. unfold attempt, validateAndCheckIn.
  rewrite (truthy_true _ Hq), (truthy_true _ He). cbn [negb orb run fold_left].
  rewrite (step_validate_settled _ vf qrCode e); [reflexivity|].
  cbn [spawn callApi setLoading setTasks tasks]. apply nth_error_snoc.
Qed.

End Attempt.

(** ** Counting requests *)

Lemma countIf_snoc {A} (p : A -> bool) (l : list A) (x : A) :
  countIf p (l ++ [x]) = countIf p l + (if p x then 1 else 0).
Proof.
  unfold countIf. rewrite filter_app, length_app. cbn [filter].
  destruct (p x); reflexivity.
Qed.

Lemma prefix_append (s t : string) : prefix s (s ++ t)%string = true.
Proof.
  induction s as [|c s IH]; cbn [prefix String.append].
  - now destruct t.
  - destruct (ascii_dec c c) as [_|Hne]; [exact IH | now elim Hne].
Qed.

Lemma isCheckIn_checkIn (qrCode : string) : isCheckIn (POST (checkInEndpoint qrCode)) = true.
Proof. apply prefix_append. Qed.


(** ** The guards of validateAndCheckIn *)

(** Reads the observable fields off a state built by the handlers. *)
Ltac observe :=
  cbn [result toasts apiLog loading tasks uncaught cameraError scanning scanningQueued
       codeReaderRef decoding resets manualCode selectedEvent nextReader
       setTasks validate_finally validate_catch setLoading showError successToast
       showToast setResult spawn callApi setScanning setManualCode setCameraError].

Section Guards.
Context {ops : StringOps}.

(** A resumption that ends the function at the validate response: its task
    is removed and a later settlement of the same slot finds nothing. *)
Lemma attempt_ends_at_validate (e qrCode : string) (vf cf : FetchOutcome) (st s : State) :
  qrCode <> "" -> e <> "" ->
  validate_resume e qrCode (settled vf)
    (spawn (AwaitValidate qrCode e)
       (callApi (GET (validateEndpoint qrCode)) (setLoading true st))) = Done s ->
  tasks s = tasks st ++ [AwaitValidate qrCode e] ->
  attempt e qrCode vf cf st = setTasks (tasks st) s.
Proof.
  intros Hq He Hres Htasks. rewrite (attempt_unfold _ _ _ _ _ Hq He), Hres.
  cbn [finish]. rewrite Htasks, dropNth_snoc.
  apply step_nothing_settled. cbn [setTasks tasks]. apply nth_error_end.
Qed.

(** A resumption that goes on to the check-in request: the second
    settlement resumes it. *)
Lemma attempt_goes_to_checkIn (e qrCode : string) (vf cf : FetchOutcome) (st s : State) :
  qrCode <> "" -> e <> "" ->
  validate_resume e qrCode (settled vf)
    (spawn (AwaitValidate qrCode e)
       (callApi (GET (validateEndpoint qrCode)) (setLoading true st))) =
    Await (AwaitCheckIn qrCode) s ->
  tasks s = tasks st ++ [AwaitValidate qrCode e] ->
  attempt e qrCode vf cf st =
  finish (length (tasks st))
    (checkIn_resume (settled cf) (setTasks (tasks st ++ [AwaitCheckIn qrCode]) s)).
Proof.
  intros Hq He Hres Htasks. rewrite (attempt_unfold _ _ _ _ _ Hq He), Hres.
  cbn [finish]. rewrite Htasks, putNth_snoc.
  apply (step_checkIn_settled _ _ qrCode). cbn [setTasks tasks]. apply nth_error_snoc.
Qed.

(** C2: Event-match guard.  When the validate response recognises an
    attendee whose [eventId] differs from the selected event, the attempt
    ends with the wrong-event result (a failed result with the message
    'This QR code is for a different event' and the toast 'Wrong event'),
    and the only request sent is the validate one: no check-in call. *)
Theorem event_match_guard
    (selectedEvent qrCode : string) (validateFetch checkInFetch : FetchOutcome)
    (validateResponse : CheckInResult) (a : Attendee) (st : State) :
  qrCode <> "" -> selectedEvent <> "" ->
  settled validateFetch = inr validateResponse ->
  valid validateResponse = Some true ->
  attendee validateResponse = Some a ->
  eventId a <> selectedEvent ->
  let st' := attempt selectedEvent qrCode validateFetch checkInFetch st in
  result st' = Some {| valid := Some false; success := None; attendee := None;
                       message := Some "This QR code is for a different event" |} /\
  toasts st' = toasts st ++ [(ToastError, "Wrong event")] /\
  apiLog st' = apiLog st ++ [GET (validateEndpoint qrCode)] /\
  countIf isCheckIn (apiLog st') = countIf isCheckIn (apiLog st) /\
  loading st' = false /\ tasks st' = tasks st /\ uncaught st' = uncaught st.
Proof.
  intros Hq He Hv Hvalid Hatt Hevent st'. subst st'.
  apply String.eqb_neq in Hevent.
  erewrite attempt_ends_at_validate; eauto.
  2:{ unfold validate_resume, validate_body. rewrite Hv, Hvalid, Hatt. cbn [truthyFlag].
    rewrite Hevent. reflexivity. }
  2:{ reflexivity. }
  observe. rewrite countIf_snoc. cbn [isCheckIn]. rewrite Nat.add_0_r. repeat split.
Qed.

(** C3: Happy path.  When the validate response is valid, the attendee
    belongs to the selected event and is not marked as already checked in,
    the check-in request is sent exactly once (however it settles), and when
    it answers [success = true] the result is the successful one, carrying
    the attendee of the check-in response. *)
Theorem happy_path
    (selectedEvent qrCode : string) (validateFetch checkInFetch : FetchOutcome)
    (validateResponse : CheckInResult) (a : Attendee) (st : State) :
  qrCode <> "" -> selectedEvent <> "" ->
  settled validateFetch = inr validateResponse ->
  valid validateResponse = Some true ->
  attendee validateResponse = Some a ->
  eventId a = selectedEvent ->
  truthyFlag (alreadyCheckedIn a) = false ->
  let st' := attempt selectedEvent qrCode validateFetch checkInFetch st in
  apiLog st' = apiLog st ++ [GET (validateEndpoint qrCode); POST (checkInEndpoint qrCode)] /\
  countIf isCheckIn (apiLog st') = countIf isCheckIn (apiLog st) + 1 /\
  loading st' = false /\ tasks st' = tasks st /\
  forall checkInResponse,
    settled checkInFetch = inr checkInResponse ->
    success checkInResponse = Some true ->
    result st' = Some {| valid := Some true; success := None;
                         attendee := attendee checkInResponse; message := None |} /\
    toasts st' = toasts st ++ [(ToastSuccess, "Check-in successful!")].
Proof.
  intros Hq He Hv Hvalid Hatt Hevent Hnot st'. subst st'.
  apply String.eqb_eq in Hevent.
  erewrite attempt_goes_to_checkIn; eauto.
  2:{ unfold validate_resume, validate_body. rewrite Hv, Hvalid, Hatt. cbn [truthyFlag].
      rewrite Hevent, Hnot. reflexivity. }
  2:{ reflexivity. }
  assert (Hlog : forall s, apiLog (finish (length (tasks st)) (checkIn_resume (settled checkInFetch) s))
                           = apiLog s).
  { intro s. unfold checkIn_resume, checkIn_body.
    destruct (settled checkInFetch) as [err|r]; [reflexivity|].
    destruct (truthyFlag (success r)); reflexivity. }
  assert (Hload : forall s, loading (finish (length (tasks st)) (checkIn_resume (settled checkInFetch) s))
                            = false).
  { intro s. unfold checkIn_resume, checkIn_body.
    destruct (settled checkInFetch) as [err|r]; [reflexivity|].
    destruct (truthyFlag (success r)); reflexivity. }
  assert (Htasks : forall s, tasks s = tasks st ++ [AwaitCheckIn qrCode] ->
             tasks (finish (length (tasks st)) (checkIn_resume (settled checkInFetch) s))
             = tasks st).
  { intros s Hs. unfold checkIn_resume, checkIn_body.
    destruct (settled checkInFetch) as [err|r];
      [|destruct (truthyFlag (success r))];
      cbn [negb tryCatchFinally finish tasks setTasks validate_finally validate_catch
           setLoading showError successToast showToast setResult];
      rewrite Hs; apply dropNth_snoc. }
  rewrite Hlog, Hload, Htasks by reflexivity.
  cbn [apiLog setTasks callApi spawn setLoading].
  rewrite <- app_assoc. cbn [app].
  split; [reflexivity|]. split.
  { change [GET (validateEndpoint qrCode); POST (checkInEndpoint qrCode)]
      with ([GET (validateEndpoint qrCode)] ++ [POST (checkInEndpoint qrCode)]).
    rewrite app_assoc, !countIf_snoc, isCheckIn_checkIn. cbn [isCheckIn].
    now rewrite Nat.add_0_r. }
  split; [reflexivity|]. split; [reflexivity|].
  intros r Hr Hsucc. unfold checkIn_resume, checkIn_body. rewrite Hr, Hsucc.
  cbn. split; reflexivity.
Qed.

(** C5: Invalid-code branch.  When the validate response does not
    recognise the code ([valid] not true, or no attendee payload), the
    attempt ends with the invalid result (the server's message, or
    'Invalid QR code'), the result panel is populated, and no check-in call
    is sent. *)
Theorem invalid_code_branch
    (selectedEvent qrCode : string) (validateFetch checkInFetch : FetchOutcome)
    (validateResponse : CheckInResult) (st : State) :
  qrCode <> "" -> selectedEvent <> "" ->
  settled validateFetch = inr validateResponse ->
  valid validateResponse <> Some true \/ attendee validateResponse = None ->
  let st' := attempt selectedEvent qrCode validateFetch checkInFetch st in
  result st' = Some {| valid := Some false; success := None; attendee := None;
                       message := Some (orElse (message validateResponse)
                                               "Invalid QR code") |} /\
  toasts st' = toasts st ++ [(ToastError, "Invalid QR code")] /\
  apiLog st' = apiLog st ++ [GET (validateEndpoint qrCode)] /\
  countIf isCheckIn (apiLog st') = countIf isCheckIn (apiLog st) /\
  loading st' = false /\ tasks st' = tasks st /\ uncaught st' = uncaught st.
Proof.
  intros Hq He Hv Hinvalid st'. subst st'.
  assert (Hnone : (if truthyFlag (valid validateResponse)
                   then attendee validateResponse else None) = None).
  { destruct Hinvalid as [Hn | Hn].
    - destruct (truthyFlag (valid validateResponse)) eqn:Ht; [|reflexivity].
      apply truthyFlag_true in Ht. contradiction.
    - rewrite Hn. now destruct (truthyFlag _). }
  erewrite attempt_ends_at_validate; eauto.
  2:{ unfold validate_resume, validate_body. rewrite Hv, Hnone. reflexivity. }
  2:{ reflexivity. }
  observe. rewrite countIf_snoc. cbn [isCheckIn]. rewrite Nat.add_0_r. repeat split.
Qed.

(** C4: Already-checked-in guard.  When the validate response recognises an
    attendee marked [alreadyCheckedIn], no check-in call is sent; and when
    that attendee belongs to the selected event (the guards run in order,
    the event guard first) the attempt ends with the already-checked-in
    result, which carries the attendee. *)
Theorem already_checked_in_guard
    (selectedEvent qrCode : string) (validateFetch checkInFetch : FetchOutcome)
    (validateResponse : CheckInResult) (a : Attendee) (st : State) :
  qrCode <> "" -> selectedEvent <> "" ->
  settled validateFetch = inr validateResponse ->
  valid validateResponse = Some true ->
  attendee validateResponse = Some a ->
  alreadyCheckedIn a = Some true ->
  let st' := attempt selectedEvent qrCode validateFetch checkInFetch st in
  apiLog st' = apiLog st ++ [GET (validateEndpoint qrCode)] /\
  countIf isCheckIn (apiLog st') = countIf isCheckIn (apiLog st) /\
  loading st' = false /\ tasks st' = tasks st /\
  (eventId a = selectedEvent ->
   result st' = Some {| valid := Some true; success := None; attendee := Some a;
                        message := Some "Already checked in" |} /\
   toasts st' = toasts st ++ [(ToastError, "Already checked in")]).
Proof.
  intros Hq He Hv Hvalid Hatt Halready st'. subst st'.
  destruct (String.eqb (eventId a) selectedEvent) eqn:Hevent.
  - erewrite attempt_ends_at_validate; eauto.
    2:{ unfold validate_resume, validate_body. rewrite Hv, Hvalid, Hatt. cbn [truthyFlag].
        rewrite Hevent, Halready. reflexivity. }
    2:{ reflexivity. }
    observe. rewrite countIf_snoc. cbn [isCheckIn]. rewrite Nat.add_0_r. repeat split.
  - apply String.eqb_neq in Hevent.
    erewrite attempt_ends_at_validate; eauto.
    2:{ unfold validate_resume, validate_body. rewrite Hv, Hvalid, Hatt. cbn [truthyFlag].
        apply String.eqb_neq in Hevent. rewrite Hevent. reflexivity. }
    2:{ reflexivity. }
    observe. rewrite countIf_snoc. cbn [isCheckIn]. rewrite Nat.add_0_r.
    repeat (split; [reflexivity|]). intro Heq. contradiction.
Qed.

End Guards.

(** ** Error containment *)

Section Containment.
Context {ops : StringOps}.

Lemma validate_resume_caught (e qrCode : string) (o : Thrown + CheckInResult) (st : State) :
  forall err s, validate_resume e qrCode o st <> Raise err s.
Proof.
  intros err s. unfold validate_resume.
  destruct (validate_body e qrCode o st); cbn [tryCatchFinally]; discriminate.
Qed.

Lemma checkIn_resume_caught (o : Thrown + CheckInResult) (st : State) :
  forall err s, checkIn_resume o st <> Raise err s.
Proof.
  intros err s. unfold checkIn_resume.
  destruct (checkIn_body o st); cbn [tryCatchFinally]; discriminate.
Qed.

Lemma fetchEvents_resume_caught (o : Thrown + list Event) (st : State) :
  forall err s, fetchEvents_resume o st <> Raise err s.
Proof.
  intros err s. unfold fetchEvents_resume.
  destruct o as [x|[|first rest]]; discriminate.
Qed.

(** A stretch that does not throw leaves the list of uncaught exceptions as
    the stretch itself left it. *)
Lemma finish_uncaught (k : nat) (c : Completion) :
  (forall err s, c <> Raise err s) ->
  uncaught (finish k c) = uncaught (stateOf c).
Proof.
  intro H. destruct c as [s|t s|err s]; cbn [finish uncaught setTasks]; try reflexivity.
  now elim (H err s).
Qed.

Lemma validate_resume_uncaught (e qrCode : string) (o : Thrown + CheckInResult) (st : State) :
  uncaught (stateOf (validate_resume e qrCode o st)) = uncaught st.
Proof.
  unfold validate_resume, validate_body.
  destruct o as [err|r]; [reflexivity|].
  destruct (truthyFlag (valid r)); [destruct (attendee r) as [a|]|]; try reflexivity.
  destruct (negb (eventId a =? e)%string); [reflexivity|].
  destruct (truthyFlag (alreadyCheckedIn a)); reflexivity.
Qed.

Lemma checkIn_resume_uncaught (o : Thrown + CheckInResult) (st : State) :
  uncaught (stateOf (checkIn_resume o st)) = uncaught st.
Proof.
  unfold checkIn_resume, checkIn_body.
  destruct o as [err|r]; [reflexivity|].
  destruct (negb (truthyFlag (success r))); reflexivity.
Qed.

Lemma startScanning_resume_uncaught (r : nat) (e : string)
    (o : Thrown + list MediaDeviceInfo) (st : State) :
  uncaught (stateOf (startScanning_resume r e o st)) = uncaught st.
Proof.
  unfold startScanning_resume, startScanning_body, startScanning_catch.
  destruct o as [err|devices]; [destruct (thrownMessage err); reflexivity|].
  destruct (selectDevice devices); [|reflexivity].
  destruct (videoRef_current st); reflexivity.
Qed.

Lemma fetchEvents_resume_uncaught (o : Thrown + list Event) (st : State) :
  uncaught (stateOf (fetchEvents_resume o st)) = uncaught st.
Proof. destruct o as [x|[|first rest]]; reflexivity. Qed.

Lemma validateAndCheckIn_uncaught (e qrCode : string) (st : State) :
  uncaught (validateAndCheckIn e qrCode st) = uncaught st.
Proof.
  unfold validateAndCheckIn.
  destruct (negb (truthy qrCode) || negb (truthy e)); reflexivity.
Qed.

Lemma stopScanning_uncaught (st : State) : uncaught (stopScanning st) = uncaught st.
Proof. unfold stopScanning. destruct (codeReaderRef st); reflexivity. Qed.

(** Apart from the two camera paths (a camera that cannot be opened, a
    nullish value thrown by the device enumeration), a turn of the event loop
    leaves no exception uncaught. *)
Lemma step_uncaught (a : Action) (st : State) :
  cameraSafe a -> uncaught (step a st) = uncaught st.
Proof.
  intro Hsafe. destruct a; cbn [step].
  - destruct (formVisible st); reflexivity.
  - destruct (scanning st); reflexivity.
  - destruct (result st); reflexivity.
  - reflexivity.
  - destruct (formVisible st); reflexivity.
  - destruct (formVisible st && truthy (trim (manualCode st)) && negb (loading st));
      [|reflexivity].
    unfold handleManualSubmit. destruct (truthy (trim (manualCode st))); [|reflexivity].
    cbn [setManualCode uncaught]. apply validateAndCheckIn_uncaught.
  - apply stopScanning_uncaught.
  - unfold flush. destruct (scanningQueued st) as [v|]; [|reflexivity].
    destruct (Bool.eqb v (scanning st)); [reflexivity|].
    destruct v; [reflexivity|]. now rewrite stopScanning_uncaught.
  - destruct (find _ (decoding st)) as [s|]; [|reflexivity].
    unfold decodeCallback. destruct text as [qrCode|]; [|reflexivity].
    destruct (truthy qrCode); [|reflexivity].
    now rewrite validateAndCheckIn_uncaught.
  - contradiction.
  - destruct (nth_error (tasks st) k) as [[| | |]|]; try reflexivity.
    rewrite finish_uncaught by apply fetchEvents_resume_caught.
    apply fetchEvents_resume_uncaught.
  - destruct (nth_error (tasks st) k) as [[|r e| |]|]; try reflexivity.
    rewrite finish_uncaught; [apply startScanning_resume_uncaught|].
    intros x s. unfold startScanning_resume, startScanning_body, startScanning_catch.
    destruct outcome as [[| | |]|devices]; cbn [thrownMessage]; try discriminate;
      try contradiction.
    destruct (selectDevice devices); [|discriminate].
    destruct (videoRef_current st); discriminate.
  - destruct (nth_error (tasks st) k) as [[| | |]|]; try reflexivity.
    + rewrite finish_uncaught by apply validate_resume_caught.
      apply validate_resume_uncaught.
    + rewrite finish_uncaught by apply checkIn_resume_caught.
      apply checkIn_resume_uncaught.
Qed.

(** X19: Only the camera can leave an exception uncaught: in a run in which
    no camera fails to open and the device enumeration throws no nullish
    value, whatever else fails (event loading, device enumeration, validate
    and check-in requests), nothing is left uncaught. *)
Theorem only_camera_failures_escape (actions : list Action) (st : State) :
  Forall cameraSafe actions -> uncaught (run actions st) = uncaught st.
Proof.
  revert st. induction actions as [|a actions IH]; intros st Hsafe; [reflexivity|].
  inversion Hsafe as [|? ? Ha Hrest]; subst.
  cbn [run fold_left]. fold (run actions (step a st)).
  now rewrite (IH _ Hrest), step_uncaught.
Qed.

(** X18: Failures of the two requests are contained.  Whatever the validate
    request or the check-in request throws, the attempt ends normally with
    the failed result whose message is [getErrorMessage] of the error, shown
    as an error toast, [loading] is cleared and nothing is left uncaught; a
    transport failure of [fetch] reaches the page as the error 'Network
    error. Please check your connection.', which is the text displayed. *)
Theorem request_failures_contained
    (selectedEvent qrCode : string) (validateFetch checkInFetch : FetchOutcome)
    (st : State) :
  qrCode <> "" -> selectedEvent <> "" ->
  let st' := attempt selectedEvent qrCode validateFetch checkInFetch st in
  let failed err :=
    result st' = Some {| valid := Some false; success := None; attendee := None;
                         message := Some (getErrorMessage err) |} /\
    toasts st' = toasts st ++ [(ToastError, getErrorMessage err)] /\
    loading st' = false /\ tasks st' = tasks st /\ uncaught st' = uncaught st in
  (forall err, settled validateFetch = inl err ->
     failed err /\ apiLog st' = apiLog st ++ [GET (validateEndpoint qrCode)]) /\
  (forall validateResponse a err,
     settled validateFetch = inr validateResponse ->
     valid validateResponse = Some true ->
     attendee validateResponse = Some a ->
     eventId a = selectedEvent ->
     truthyFlag (alreadyCheckedIn a) = false ->
     settled checkInFetch = inl err ->
     failed err) /\
  settled NetworkFailure = inl (APIError 0 "Network error. Please check your connection.") /\
  getErrorMessage (APIError 0 "Network error. Please check your connection.") =
    "Network error. Please check your connection.".
Proof.
  intros Hq He st' failed. subst st' failed. cbv beta.
  split; [|split; [|split; reflexivity]].
  - intros err Hv.
    erewrite attempt_ends_at_validate; eauto.
    2:{ unfold validate_resume, validate_body. rewrite Hv. reflexivity. }
    2:{ reflexivity. }
    observe. repeat split.
  - intros v a err Hv Hvalid Hatt Hevent Hnot Hc.
    apply String.eqb_eq in Hevent.
    erewrite attempt_goes_to_checkIn; eauto.
    2:{ unfold validate_resume, validate_body. rewrite Hv, Hvalid, Hatt. cbn [truthyFlag].
        rewrite Hevent, Hnot. reflexivity. }
    2:{ reflexivity. }
    unfold checkIn_resume, checkIn_body. rewrite Hc.
    cbn [tryCatchFinally finish]. observe. rewrite dropNth_snoc. repeat split.
Qed.

End Containment.

(** ** Device selection *)

Lemma prefix_spec (sub s : string) :
  prefix sub s = true <-> exists after, s = (sub ++ after)%string.
Proof.
  revert s. induction sub as [|c sub IH]; intro s.
  - cbn [String.append]. split; [exists s; reflexivity|now destruct s].
  - destruct s as [|c' s]; cbn [prefix String.append].
    + split; [discriminate|intros [after H]; discriminate].
    + destruct (ascii_dec c c') as [<-|Hne].
      * rewrite IH. split; intros [after H]; exists after; [now rewrite H|now injection H].
      * split; [discriminate|]. intros [after H]. injection H as H _. now elim Hne.
Qed.

Lemma includes_spec (s sub : string) : includes s sub = true <-> contains s sub.
Proof.
  unfold contains. induction s as [|c s IH]; cbn [includes].
  - rewrite orb_false_r, prefix_spec. split.
    + intros [after H]. exists "", after. exact H.
    + intros (before & after & H). destruct before; cbn [String.append] in H.
      * now exists after.
      * discriminate.
  - rewrite orb_true_iff, prefix_spec, IH. split.
    + intros [[after H]|(before & after & H)].
      * exists "", after. exact H.
      * exists (String c before), after. cbn [String.append]. now rewrite H.
    + intros (before & after & H). destruct before as [|c' before]; cbn [String.append] in H.
      * left. now exists after.
      * right. injection H as _ H. now exists before, after.
Qed.

Section Devices.
Context {ops : StringOps}.

(** The code's test is the rule's: the lower-cased label contains one of
    the three words. *)
Lemma isBackCamera_spec (d : MediaDeviceInfo) : isBackCamera d = true <-> rearFacing d.
Proof.
  unfold isBackCamera, rearFacing. rewrite !orb_true_iff, !includes_spec. tauto.
Qed.

Lemma isBackCamera_false (d : MediaDeviceInfo) : isBackCamera d = false <-> ~ rearFacing d.
Proof.
  rewrite <- isBackCamera_spec. destruct (isBackCamera d); split; congruence.
Qed.

Lemma all_front (l : list MediaDeviceInfo) :
  Forall (fun x => isBackCamera x = false) l <-> Forall (fun x => ~ rearFacing x) l.
Proof.
  split; intro H; (eapply Forall_impl; [|exact H]); intro x; apply isBackCamera_false.
Qed.

Lemma find_first {A} (p : A -> bool) (l : list A) (x : A) :
  find p l = Some x ->
  exists before after,
    l = before ++ x :: after /\ Forall (fun y => p y = false) before /\ p x = true.
Proof.
  induction l as [|y l IH]; cbn [find]; [discriminate|].
  destruct (p y) eqn:Hy.
  - intros [= ->]. exists [], l. repeat split; [constructor | assumption].
  - intro H. destruct (IH H) as (before & after & -> & Hall & Hx).
    exists (y :: before), after. repeat split; [constructor|]; assumption.
Qed.

Lemma find_none_all {A} (p : A -> bool) (l : list A) :
  find p l = None -> Forall (fun y => p y = false) l.
Proof.
  induction l as [|y l IH]; cbn [find]; [constructor|].
  destruct (p y) eqn:Hy; [discriminate|]. intro H. constructor; auto.
Qed.

Lemma find_after_none {A} (p : A -> bool) (before after : list A) (x : A) :
  Forall (fun y => p y = false) before -> p x = true ->
  find p (before ++ x :: after) = Some x.
Proof.
  intros Hall Hx. induction Hall as [|y before Hy Hall IH]; cbn [app find].
  - now rewrite Hx.
  - now rewrite Hy.
Qed.

Lemma find_all_none {A} (p : A -> bool) (l : list A) :
  Forall (fun y => p y = false) l -> find p l = None.
Proof.
  intro Hall. induction Hall as [|y l Hy Hall IH]; cbn [find]; [reflexivity|].
  now rewrite Hy.
Qed.

Lemma nth_last_snoc {A} (l : list A) (x d : A) :
  nth (length (l ++ [x]) - 1) (l ++ [x]) d = x.
Proof.
  rewrite length_app. cbn [length]. rewrite Nat.add_sub.
  rewrite app_nth2 by lia. now rewrite Nat.sub_diag.
Qed.

(** The rule leaves no choice: it names the device [selectDevice] returns. *)
Lemma selectDevice_complete (videoInputDevices : list MediaDeviceInfo)
    (choice : option string) :
  DeviceChoice videoInputDevices choice -> selectDevice videoInputDevices = choice.
Proof.
  intros [|before d after Hall Hback|before d Hmany Hall|d Hfront];
    try apply all_front in Hall; try apply isBackCamera_spec in Hback;
    try apply isBackCamera_false in Hfront.
  - reflexivity.
  - pose proof (find_after_none _ _ after _ Hall Hback) as Hfind.
    destruct (before ++ d :: after) as [|first rest] eqn:Hl;
      [now destruct before|].
    unfold selectDevice. now rewrite Hfind.
  - pose proof (find_all_none _ _ Hall) as Hfind.
    pose proof (nth_last_snoc before d) as Hnth.
    assert (Hlen : (1 <? length (before ++ [d])) = true).
    { apply Nat.ltb_lt. rewrite length_app. cbn [length].
      destruct before; [contradiction|cbn [length]; lia]. }
    destruct (before ++ [d]) as [|first rest] eqn:Hl;
      [now destruct before|].
    unfold selectDevice. now rewrite Hfind, Hlen, Hnth.
  - unfold selectDevice. cbn [find]. now rewrite Hfront.
Qed.

(** C7: Device selection.  The device [startScanning] opens is the one the
    rule names: none (and 'No camera found', scanning switched off, no
    reader started) for an empty enumeration; the first device labelled
    back / environment / rear; else the last of several; else the only
    one.  With a device chosen and the video element mounted, that device
    is the one handed to [decodeFromVideoDevice]. *)
Theorem device_selection (videoInputDevices : list MediaDeviceInfo) :
  DeviceChoice videoInputDevices (selectDevice videoInputDevices) /\
  (forall choice,
     DeviceChoice videoInputDevices choice <-> selectDevice videoInputDevices = choice) /\
  (forall codeReader e st,
     startScanning_resume codeReader e (inr []) st =
     Done (setScanning false (setCameraError (Some "No camera found") st))) /\
  (forall codeReader e st,
     startScanning_resume codeReader e (inr videoInputDevices) st =
     match selectDevice videoInputDevices with
     | None => Done (setScanning false (setCameraError (Some "No camera found") st))
     | Some selectedDeviceId =>
         Done (if scanning st
               then decodeFromVideoDevice codeReader selectedDeviceId e st
               else st)
     end).
Proof.
  assert (Hsound : DeviceChoice videoInputDevices (selectDevice videoInputDevices)).
  2:{ split; [exact Hsound|]. split; [|split].
      - intro choice. split; [apply selectDevice_complete|now intros <-].
      - reflexivity.
      - intros codeReader e st. unfold startScanning_resume, startScanning_body.
        destruct (selectDevice videoInputDevices); [|reflexivity].
        unfold videoRef_current. destruct (scanning st); reflexivity. }
  - destruct videoInputDevices as [|first rest]; [constructor|].
    change (selectDevice (first :: rest)) with
      (match find isBackCamera (first :: rest) with
       | Some backCamera => Some (deviceId backCamera)
       | None =>
           if 1 <? length (first :: rest) then
             Some (deviceId (nth (length (first :: rest) - 1) (first :: rest) first))
           else Some (deviceId first)
       end).
    remember (first :: rest) as l eqn:Hl.
    destruct (find isBackCamera l) as [backCamera|] eqn:Hfind.
    + destruct (find_first _ _ _ Hfind) as (before & after & -> & Hall & Hback).
      apply all_front in Hall. apply isBackCamera_spec in Hback. now constructor.
    + apply find_none_all in Hfind. apply all_front in Hfind.
      destruct (1 <? length l) eqn:Hlen.
      * apply Nat.ltb_lt in Hlen.
        destruct (exists_last (l := l)) as (before & d & Hsnoc);
          [rewrite Hl; discriminate|].
        rewrite Hsnoc in *. rewrite nth_last_snoc.
        apply LastOfMany; [|assumption].
        intros ->. cbn in Hlen. lia.
      * apply Nat.ltb_ge in Hlen. subst l.
        destruct rest; [|cbn in Hlen; lia].
        apply OnlyAvailable. now inversion Hfind.
Qed.

End Devices.

(** The specification's three examples, on ASCII labels, and four more
    that tell the rule's parts apart: a labelled device wins wherever it
    stands, in any case, under each of the three words, and the first of two
    labelled devices is taken. *)

Example device_preference_labelled :
  selectDevice [camera "cam0" "Front Camera"; camera "cam1" "Back Camera"] = Some "cam1".
Proof. reflexivity. Qed.

Example device_preference_last :
  selectDevice [camera "cam0" "Camera 0"; camera "cam1" "Camera 1"] = Some "cam1".
Proof. reflexivity. Qed.

Example device_preference_only :
  selectDevice [camera "cam0" ""] = Some "cam0".
Proof. reflexivity. Qed.

Example device_preference_labelled_first :
  selectDevice [camera "cam0" "Back Camera"; camera "cam1" "Front Camera"] = Some "cam0".
Proof. reflexivity. Qed.

Example device_preference_upper_case :
  selectDevice [camera "cam0" "FaceTime HD"; camera "cam1" "REAR WIDE";
                camera "cam2" "USB Camera"] = Some "cam1".
Proof. reflexivity. Qed.

Example device_preference_environment :
  selectDevice [camera "cam0" "camera2 1, facing Environment"; camera "cam1" "camera2 0"]
  = Some "cam0".
Proof. reflexivity. Qed.

Example device_preference_first_of_labelled :
  selectDevice [camera "cam0" "Camera 0"; camera "cam1" "Back Ultra Wide";
                camera "cam2" "Back Camera"] = Some "cam1".
Proof. reflexivity. Qed.

(** ** Starting a scan *)

Section Start.
Context {ops : StringOps}.

Lemma validateAndCheckIn_no_event (qrCode : string) (st : State) :
  validateAndCheckIn "" qrCode st = st.
Proof.
  unfold validateAndCheckIn. cbn [truthy String.eqb negb]. now rewrite orb_true_r.
Qed.

(** C8, as amended: Starting a scan has no event precondition.  From the
    idle screen, "Start Scanning" followed by the render and the device
    enumeration starts the reader on the chosen device whatever
    [selectedEvent] is, the empty selection included, and surfaces no error;
    with no event selected, a code that is then decoded or typed is dropped
    by the guard of [validateAndCheckIn]: no request, no result, no
    message. *)
Theorem start_scanning_without_event
    (st : State) (videoInputDevices : list MediaDeviceInfo) (selectedDeviceId : string) :
  formVisible st = true -> scanningQueued st = None ->
  selectDevice videoInputDevices = Some selectedDeviceId ->
  let st' := run [ClickStartScanning; Flush;
                  DevicesSettled (length (tasks st)) (inr videoInputDevices)] st in
  (scanning st' = true /\
   decoding st' = decoding st ++ [{| reader := nextReader st; device := selectedDeviceId;
                                     sessionEvent := selectedEvent st |}] /\
   codeReaderRef st' = Some (nextReader st) /\
   cameraError st' = None /\ toasts st' = toasts st /\
   apiLog st' = apiLog st /\ result st' = result st) /\
  (forall text s,
     let s' := decodeCallback "" text s in
     apiLog s' = apiLog s /\ tasks s' = tasks s /\ result s' = result s /\
     toasts s' = toasts s /\ cameraError s' = cameraError s /\ loading s' = loading s) /\
  (forall s, selectedEvent s = "" ->
     let s' := handleManualSubmit s in
     apiLog s' = apiLog s /\ tasks s' = tasks s /\ result s' = result s /\
     toasts s' = toasts s /\ cameraError s' = cameraError s /\ loading s' = loading s).
Proof.
  intros Hidle Hqueue Hdev st'. subst st'. split; [|split].
  - assert (Hscan : scanning st = false).
    { unfold formVisible in Hidle. destruct (scanning st); [discriminate|reflexivity]. }
    cbn [run fold_left]. cbn [step]. rewrite Hidle.
    unfold flush. cbn [scanningQueued setScanning scanning]. rewrite Hscan.
    cbn [Bool.eqb]. unfold startScanning.
    cbn [spawn setTasks tasks newReader commitScanning setCameraError nextReader
         selectedEvent].
    rewrite nth_error_snoc.
    unfold startScanning_resume, startScanning_body. rewrite Hdev.
    cbn. repeat split.
  - intros text s s'. subst s'. unfold decodeCallback.
    destruct text as [qrCode|]; [|repeat split].
    destruct (truthy qrCode); [|repeat split].
    rewrite validateAndCheckIn_no_event. repeat split.
  - intros s Hs s'. subst s'. unfold handleManualSubmit.
    destruct (truthy (trim (manualCode s))); [|repeat split].
    rewrite Hs, validateAndCheckIn_no_event. repeat split.
Qed.

End Start.

(** ** Manual entry *)

Section Manual.
Context {ops : StringOps}.

Lemma validateAndCheckIn_after_setScanning (e qrCode : string) (v : bool) (st : State) :
  validateAndCheckIn e qrCode (setScanning v st) =
  setScanning v (validateAndCheckIn e qrCode st).
Proof.
  unfold validateAndCheckIn.
  destruct (negb (truthy qrCode) || negb (truthy e)); reflexivity.
Qed.

(** C9: Manual entry parity.  Submitting a blank or whitespace-only code
    changes nothing and sends nothing; a non-blank code is trimmed and handed
    to [validateAndCheckIn], the function the decode callback calls, so that
    the requests sent, the suspended function, [loading], the result and the
    toasts are those of a camera decode of the trimmed code. *)
Theorem manual_entry_parity (st : State) :
  let code := trim (manualCode st) in
  let decoded := decodeCallback (selectedEvent st) (Some code) st in
  (code = "" -> handleManualSubmit st = st /\ step SubmitManual st = st) /\
  (code <> "" ->
   handleManualSubmit st =
     setManualCode "" (validateAndCheckIn (selectedEvent st) code st) /\
   decoded = setScanning false (validateAndCheckIn (selectedEvent st) code st)) /\
  apiLog (handleManualSubmit st) = apiLog decoded /\
  tasks (handleManualSubmit st) = tasks decoded /\
  loading (handleManualSubmit st) = loading decoded /\
  result (handleManualSubmit st) = result decoded /\
  toasts (handleManualSubmit st) = toasts decoded.
Proof.
  intros code decoded. subst code decoded.
  unfold handleManualSubmit, decodeCallback. cbn [step].
  split; [|split].
  - intro Hblank. rewrite Hblank. cbn [truthy String.eqb negb].
    rewrite andb_false_r. cbn [andb]. split; reflexivity.
  - intro Hcode. rewrite (truthy_true _ Hcode).
    split; [reflexivity|]. apply validateAndCheckIn_after_setScanning.
  - destruct (truthy (trim (manualCode st))); [|repeat split].
    rewrite validateAndCheckIn_after_setScanning. repeat split.
Qed.

End Manual.

(** ** Teardown *)

Section Teardown.
Context {ops : StringOps}.

Lemma finish_readers (k : nat) (c : Completion) :
  readers (finish k c) = readers (stateOf c).
Proof. destruct c; reflexivity. Qed.

Lemma validateAndCheckIn_readers (e qrCode : string) (st : State) :
  readers (validateAndCheckIn e qrCode st) = readers st.
Proof.
  unfold validateAndCheckIn.
  destruct (negb (truthy qrCode) || negb (truthy e)); reflexivity.
Qed.

Lemma validate_resume_readers (e qrCode : string) (o : Thrown + CheckInResult) (st : State) :
  readers (stateOf (validate_resume e qrCode o st)) = readers st.
Proof.
  unfold validate_resume, validate_body.
  destruct o as [err|r]; [reflexivity|].
  destruct (truthyFlag (valid r)); [destruct (attendee r) as [a|]|]; try reflexivity.
  destruct (negb (eventId a =? e)%string); [reflexivity|].
  destruct (truthyFlag (alreadyCheckedIn a)); reflexivity.
Qed.

Lemma checkIn_resume_readers (o : Thrown + CheckInResult) (st : State) :
  readers (stateOf (checkIn_resume o st)) = readers st.
Proof.
  unfold checkIn_resume, checkIn_body.
  destruct o as [err|r]; [reflexivity|].
  destruct (negb (truthyFlag (success r))); reflexivity.
Qed.

Lemma startScanning_resume_readers (r : nat) (e : string)
    (o : Thrown + list MediaDeviceInfo) (st : State) :
  readers (stateOf (startScanning_resume r e o st)) = readers st.
Proof.
  unfold startScanning_resume, startScanning_body, startScanning_catch.
  destruct o as [err|devices]; [destruct (thrownMessage err); reflexivity|].
  destruct (selectDevice devices); [|reflexivity].
  destruct (videoRef_current st); reflexivity.
Qed.

Lemma fetchEvents_resume_readers (o : Thrown + list Event) (st : State) :
  readers (stateOf (fetchEvents_resume o st)) = readers st.
Proof. destruct o as [x|[|first rest]]; reflexivity. Qed.

(** A turn of the event loop leaves the readers alone, creates one, or
    stops the one referenced. *)
Lemma step_readers (a : Action) (st : State) :
  readers (step a st) = readers st \/
  readers (step a st) = (Some (nextReader st), S (nextReader st), resets st) \/
  readers (step a st) = readers (stopScanning st).
Proof.
  destruct a; cbn [step].
  - left. destruct (formVisible st); reflexivity.
  - left. destruct (scanning st); reflexivity.
  - left. destruct (result st); reflexivity.
  - left. reflexivity.
  - left. destruct (formVisible st); reflexivity.
  - left. destruct (formVisible st && truthy (trim (manualCode st)) && negb (loading st));
      [|reflexivity].
    unfold handleManualSubmit. destruct (truthy (trim (manualCode st))); [|reflexivity].
    apply (validateAndCheckIn_readers (selectedEvent st) (trim (manualCode st)) st).
  - right. right. reflexivity.
  - unfold flush. destruct (scanningQueued st) as [v|]; [|left; reflexivity].
    destruct (Bool.eqb v (scanning st)); [left; reflexivity|].
    destruct v; [right; left; reflexivity|].
    right. right. unfold stopScanning. cbn [codeReaderRef commitScanning].
    destruct (codeReaderRef st); reflexivity.
  - left. destruct (find _ (decoding st)) as [s|]; [|reflexivity].
    unfold decodeCallback. destruct text as [qrCode|]; [|reflexivity].
    destruct (truthy qrCode); [|reflexivity].
    now rewrite validateAndCheckIn_readers.
  - left. destruct (find _ (decoding st)); reflexivity.
  - left. destruct (nth_error (tasks st) k) as [[| | |]|]; try reflexivity.
    rewrite finish_readers. apply fetchEvents_resume_readers.
  - left. destruct (nth_error (tasks st) k) as [[| | |]|]; try reflexivity.
    rewrite finish_readers. apply startScanning_resume_readers.
  - left. destruct (nth_error (tasks st) k) as [[| | |]|]; try reflexivity.
    + rewrite finish_readers. apply validate_resume_readers.
    + rewrite finish_readers. apply checkIn_resume_readers.
Qed.

Lemma stopScanning_wellFormed (st : State) :
  ReadersWellFormed st -> ReadersWellFormed (stopScanning st).
Proof.
  intro Hwf. unfold stopScanning.
  destruct (codeReaderRef st) as [r|] eqn:Hr; [|exact Hwf].
  destruct Hwf as (Hnodup & Hbound & Href).
  destruct (Href r Hr) as [Hlt Hfresh].
  unfold ReadersWellFormed.
  cbn [resets nextReader codeReaderRef clearReaderRef reset].
  repeat split.
  - apply NoDup_app; repeat split; auto.
    + constructor; [intros []|constructor].
    + intros x Hx [<-|[]]. contradiction.
  - intros x Hx. apply in_app_or in Hx. destruct Hx as [Hx|[<-|[]]]; auto.
  - discriminate.
  - discriminate.
Qed.

Lemma wellFormed_readers (s st : State) :
  readers s = readers st -> ReadersWellFormed st -> ReadersWellFormed s.
Proof.
  unfold readers, ReadersWellFormed. intros [= Href Hnext Hresets].
  now rewrite Href, Hnext, Hresets.
Qed.

Lemma step_wellFormed (a : Action) (st : State) :
  ReadersWellFormed st -> ReadersWellFormed (step a st).
Proof.
  intro Hwf. destruct (step_readers a st) as [H|[H|H]].
  - now apply (wellFormed_readers _ st).
  - destruct Hwf as (Hnodup & Hbound & Href).
    unfold readers in H. injection H as H1 H2 H3.
    unfold ReadersWellFormed. rewrite H1, H2, H3. split; [assumption|]. split.
    + intros r Hin. apply Hbound in Hin. lia.
    + intros r [= <-]. split; [lia|]. intro Hin. apply Hbound in Hin. lia.
  - apply (wellFormed_readers _ (stopScanning st)); [assumption|].
    now apply stopScanning_wellFormed.
Qed.

Lemma run_wellFormed (actions : list Action) (st : State) :
  ReadersWellFormed st -> ReadersWellFormed (run actions st).
Proof.
  revert st. induction actions as [|a actions IH]; intros st Hwf; [assumption|].
  cbn [run fold_left]. fold (run actions (step a st)).
  apply IH. now apply step_wellFormed.
Qed.

Lemma mounted_wellFormed : ReadersWellFormed mounted.
Proof.
  unfold ReadersWellFormed. cbn. repeat split; try constructor; try discriminate;
    intros r [].
Qed.

(** C10: Teardown idempotence.  A second [stopScanning] (the stop button's
    effect followed by the unmount cleanup, say) changes nothing: it resets
    no reader, since the first call cleared the reference; with no reader
    ever acquired the call does nothing at all; it leaves no exception; and
    in every run of the page no reader is reset twice. *)
Theorem teardown_idempotent (st : State) :
  stopScanning (stopScanning st) = stopScanning st /\
  step Unmount (stopScanning st) = stopScanning st /\
  resets (stopScanning (stopScanning st)) = resets (stopScanning st) /\
  codeReaderRef (stopScanning st) = None /\
  (codeReaderRef st = None -> stopScanning st = st) /\
  uncaught (stopScanning (stopScanning st)) = uncaught st /\
  (forall actions, NoDup (resets (run actions mounted))).
Proof.
  assert (Hidem : stopScanning (stopScanning st) = stopScanning st).
  { unfold stopScanning at 2 3. destruct (codeReaderRef st) as [r|] eqn:Hr.
    - reflexivity.
    - unfold stopScanning. now rewrite Hr. }
  repeat split.
  - exact Hidem.
  - exact Hidem.
  - now rewrite Hidem.
  - unfold stopScanning. destruct (codeReaderRef st) eqn:Hr; [reflexivity|exact Hr].
  - intro Hnone. unfold stopScanning. now rewrite Hnone.
  - now rewrite !stopScanning_uncaught.
  - intro actions. apply (run_wellFormed actions mounted mounted_wellFormed).
Qed.

End Teardown.

(** ** One validation per scan *)

Section SingleValidation.
Context {ops : StringOps}.





End SingleValidation.

(** * Concrete runs (ASCII strings) *)

(** C1: the code at the failing input.  After the first accepted code the
    validate request has already left while the reader is still subscribed
    and not reset ([setScanning(false)] is only queued), so a second
    callback delivered before the render starts a second validation, and the
    two go on to two check-in requests: two validate/check-in pairs where
    one is required. *)
Lemma single_validation_counterexample :
  let accepted := step (Decoded 0 (Some "QR123")) scanningE1 in
  let again := step (Decoded 0 (Some "QR123")) accepted in
  let answer := okJson (recognised (sampleAttendee "E1" None)) in
  let done := okJson (committed (sampleAttendee "E1" None)) in
  let finished := run [ApiSettled 0 answer; ApiSettled 1 answer;
                       ApiSettled 0 done; ApiSettled 0 done] again in
  (apiLog accepted = [GET "/event"; GET "/qr/validate/QR123"] /\
   decoding accepted = [{| reader := 0; device := "cam1"; sessionEvent := "E1" |}] /\
   resets accepted = [] /\ scanning accepted = true) /\
  countIf isValidate (apiLog again) = 2 /\
  apiLog finished = [GET "/event"; GET "/qr/validate/QR123"; GET "/qr/validate/QR123";
                     POST "/qr/check-in/QR123"; POST "/qr/check-in/QR123"].
Proof. vm_compute. repeat split. Qed.

(** A second way to the same defect, by the user's actions alone: Start,
    Stop and Start again while the first device enumeration is pending
    leave two readers decoding; the render that follows the accepted code
    resets only the one referenced, and the other one's next callback
    starts a validation after the release. *)
Example stale_reader_validates_after_release :
  let cams := [camera "cam0" "Back Camera"] in
  let st := run [ClickStartScanning; Flush; ClickStopScanning; Flush;
                 ClickStartScanning; Flush;
                 DevicesSettled 0 (inr cams); DevicesSettled 0 (inr cams);
                 Decoded 1 (Some "QR123"); Flush; Decoded 0 (Some "QR123")] ready in
  codeReaderRef st = None /\ resets st = [0; 1] /\ map reader (decoding st) = [0] /\
  countIf isValidate (apiLog st) = 2.
Proof. vm_compute. repeat split. Qed.


Lemma event_match_guard_witness :
  eventId (sampleAttendee "E2" None) <> "E1" /\
  let st' := attempt "E1" "QR123" (okJson (recognised (sampleAttendee "E2" None)))
               NetworkFailure ready in
  result st' = Some {| valid := Some false; success := None; attendee := None;
                       message := Some "This QR code is for a different event" |} /\
  apiLog st' = apiLog ready ++ [GET (validateEndpoint "QR123")].
Proof.
  split; [discriminate|].
  destruct (event_match_guard "E1" "QR123" (okJson (recognised (sampleAttendee "E2" None)))
              NetworkFailure (recognised (sampleAttendee "E2" None))
              (sampleAttendee "E2" None) ready)
    as (Hresult & _ & Hlog & _);
    try reflexivity; try discriminate.
  split; [exact Hresult | exact Hlog].
Defined.

Lemma happy_path_witness :
  let checkInFetch := okJson (committed (sampleAttendee "E1" None)) in
  let st' := attempt "E1" "QR123" (okJson (recognised (sampleAttendee "E1" None)))
               checkInFetch ready in
  apiLog st' = apiLog ready ++ [GET (validateEndpoint "QR123");
                                POST (checkInEndpoint "QR123")] /\
  result st' = Some {| valid := Some true; success := None;
                       attendee := Some (sampleAttendee "E1" None); message := None |}.
Proof.
  destruct (happy_path "E1" "QR123" (okJson (recognised (sampleAttendee "E1" None)))
              (okJson (committed (sampleAttendee "E1" None)))
              (recognised (sampleAttendee "E1" None)) (sampleAttendee "E1" None) ready)
    as (Hlog & _ & _ & _ & Hresult);
    try reflexivity; try discriminate.
  split; [exact Hlog|].
  exact (proj1 (Hresult (committed (sampleAttendee "E1" None)) eq_refl eq_refl)).
Defined.

(** The guards run in order: an attendee of another event who is already
    checked in gets the wrong-event result, the event guard coming first. *)
Example event_guard_comes_first :
  let a := sampleAttendee "E2" (Some true) in
  let st' := attempt "E1" "QR123" (okJson (recognised a)) NetworkFailure ready in
  result st' = Some {| valid := Some false; success := None; attendee := None;
                       message := Some "This QR code is for a different event" |} /\
  toasts st' = [(ToastError, "Wrong event")].
Proof. vm_compute. repeat split. Qed.

Lemma already_checked_in_guard_witness :
  let a := sampleAttendee "E1" (Some true) in
  let st' := attempt "E1" "QR123" (okJson (recognised a)) NetworkFailure ready in
  alreadyCheckedIn a = Some true /\ eventId a = "E1" /\
  apiLog st' = apiLog ready ++ [GET (validateEndpoint "QR123")] /\
  result st' = Some {| valid := Some true; success := None; attendee := Some a;
                       message := Some "Already checked in" |}.
Proof.
  destruct (already_checked_in_guard "E1" "QR123"
              (okJson (recognised (sampleAttendee "E1" (Some true)))) NetworkFailure
              (recognised (sampleAttendee "E1" (Some true)))
              (sampleAttendee "E1" (Some true)) ready)
    as (Hlog & _ & _ & _ & Hresult);
    try reflexivity; try discriminate.
  split; [reflexivity|]. split; [reflexivity|].
  split; [exact Hlog | exact (proj1 (Hresult eq_refl))].
Defined.

Lemma invalid_code_branch_witness :
  let validateResponse := {| valid := Some false; success := None; attendee := None;
                             message := Some "QR code not found" |} in
  let st' := attempt "E1" "QR999" (okJson validateResponse) NetworkFailure ready in
  valid validateResponse <> Some true /\
  result st' = Some {| valid := Some false; success := None; attendee := None;
                       message := Some "QR code not found" |} /\
  apiLog st' = apiLog ready ++ [GET (validateEndpoint "QR999")].
Proof.
  split; [discriminate|].
  destruct (invalid_code_branch "E1" "QR999"
              (okJson {| valid := Some false; success := None; attendee := None;
                         message := Some "QR code not found" |})
              NetworkFailure
              {| valid := Some false; success := None; attendee := None;
                 message := Some "QR code not found" |} ready)
    as (Hresult & _ & Hlog & _);
    try reflexivity; try discriminate.
  - left. discriminate.
  - split; [exact Hresult | exact Hlog].
Defined.

Lemma request_failures_contained_witness :
  let st' := attempt "E1" "QR123" NetworkFailure NetworkFailure ready in
  result st' = Some {| valid := Some false; success := None; attendee := None;
                       message := Some "Network error. Please check your connection." |} /\
  uncaught st' = [].
Proof.
  destruct (request_failures_contained "E1" "QR123" NetworkFailure NetworkFailure ready)
    as (Hvalidate & _); try discriminate.
  destruct (Hvalidate (APIError 0 "Network error. Please check your connection.") eq_refl)
    as ((Hresult & _ & _ & _ & Huncaught) & _).
  split; [exact Hresult | exact Huncaught].
Defined.

(** C6: the code at the failing input.  The camera cannot be opened: the
    promise [decodeFromVideoDevice] returned is rejected, and since
    [startScanning] neither awaits nor catches it the rejection is left
    uncaught, with the page still in its scanning state and neither
    [cameraError] nor a toast set.  Likewise a device enumeration that
    throws [null] makes the [catch] block itself throw at [err.message]. *)
Lemma camera_failures_escape :
  let scanningNow := run [ClickStartScanning; Flush;
                          DevicesSettled 0 (inr [camera "cam0" "Back Camera"])] ready in
  let denied := step (OpenFailed 0 (JsError "Permission denied")) scanningNow in
  let thrownNull := run [ClickStartScanning; Flush; DevicesSettled 0 (inl Nullish)] ready in
  (uncaught scanningNow = [] /\ uncaught denied = [JsError "Permission denied"] /\
   scanning denied = true /\ scanningQueued denied = None /\
   cameraError denied = None /\ toasts denied = [] /\ result denied = None) /\
  (uncaught thrownNull = [nullishRead] /\ scanning thrownNull = true /\
   scanningQueued thrownNull = None /\ cameraError thrownNull = None /\
   toasts thrownNull = []).
Proof. vm_compute. repeat split. Qed.

(** C8: as stated, the claim fails: when the event list comes back empty no
    event is selected, yet "Start Scanning" acquires the camera and scans,
    with no error shown; the code then decoded is dropped without a request
    and without a message. *)
Lemma no_event_selected_counterexample :
  let st := run [EventsSettled 0 (inr []); ClickStartScanning; Flush;
                 DevicesSettled 0 (inr [camera "cam0" "Camera 0"])] mounted in
  let st2 := run [Decoded 0 (Some "QR123"); Flush] st in
  (selectedEvent st = "" /\ scanning st = true /\
   decoding st = [{| reader := 0; device := "cam0"; sessionEvent := "" |}] /\
   cameraError st = None /\ toasts st = []) /\
  (apiLog st2 = [GET "/event"] /\ result st2 = None /\ cameraError st2 = None /\
   toasts st2 = [] /\ uncaught st2 = []).
Proof. vm_compute. repeat split. Qed.

Lemma start_scanning_without_event_witness :
  let st := run [EventsSettled 0 (inr [])] mounted in
  let st' := run [ClickStartScanning; Flush;
                  DevicesSettled (length (tasks st)) (inr [camera "cam0" "Camera 0"])] st in
  selectedEvent st = "" /\ scanning st' = true /\
  decoding st' = [{| reader := 0; device := "cam0"; sessionEvent := "" |}] /\
  cameraError st' = None /\ toasts st' = toasts st.
Proof.
  split; [reflexivity|].
  destruct (start_scanning_without_event (run [EventsSettled 0 (inr [])] mounted)
              [camera "cam0" "Camera 0"] "cam0")
    as ((Hscan & Hdec & _ & Herr & Htoasts & _) & _); try reflexivity.
  split; [exact Hscan|]. split; [exact Hdec|]. split; [exact Herr | exact Htoasts].
Defined.

Lemma manual_entry_parity_witness :
  let blank := setManualCode "   " ready in
  let typed := setManualCode "  QR123 " ready in
  handleManualSubmit blank = blank /\
  apiLog (handleManualSubmit typed) = apiLog ready ++ [GET (validateEndpoint "QR123")].
Proof.
  split.
  - exact (proj1 (proj1 (manual_entry_parity (setManualCode "   " ready)) eq_refl)).
  - destruct (manual_entry_parity (setManualCode "  QR123 " ready)) as (_ & Hcode & _).
    destruct Hcode as [Hsubmit _]; [discriminate|].
    rewrite Hsubmit. reflexivity.
Defined.

Lemma teardown_idempotent_witness :
  codeReaderRef ready = None /\ stopScanning ready = ready /\
  resets (stopScanning (stopScanning scanningE1)) = [0].
Proof.
  destruct (teardown_idempotent ready) as (_ & _ & _ & _ & Hnone & _).
  destruct (teardown_idempotent scanningE1) as (_ & _ & Hresets & _).
  split; [reflexivity|]. split; [exact (Hnone eq_refl)|].
  rewrite Hresets. reflexivity.
Defined.

(** * Further properties of the code *)

(** ** The API client *)

Lemma orElse_nonempty (m : option string) (d : string) : d <> "" -> orElse m d <> "".
Proof.
  intro Hd. unfold orElse. destruct m as [s|]; [|exact Hd].
  destruct (truthy s) eqn:Hs; [|exact Hd].
  unfold truthy in Hs. apply negb_true_iff in Hs. now apply String.eqb_neq.
Qed.

Lemma orElse_some (s d : string) : s <> "" -> orElse (Some s) d = s.
Proof. intro Hs. unfold orElse. now rewrite (truthy_true _ Hs). Qed.

Lemma getErrorMessage_APIError_nonempty (statusCode : N) (text : string) :
  getErrorMessage (APIError statusCode text) <> "".
Proof.
  unfold getErrorMessage.
  repeat match goal with
         | |- context [if ?b then _ else _] => destruct b
         end;
    try discriminate; apply orElse_nonempty; discriminate.
Qed.

Lemma jsonType_spec (response : Response) :
  match contentType response with
  | Some c => includes c "application/json"
  | None => false
  end = true <->
  exists c, contentType response = Some c /\ contains c "application/json".
Proof.
  destruct (contentType response) as [c|].
  - rewrite includes_spec. split; [intro H; now exists c|].
    intros (c' & [= <-] & H). exact H.
  - split; [discriminate|]. intros (c & H & _). discriminate.
Qed.

(** X1: [request] resolves exactly on an [ok] response: with the parsed body
    when the content type contains 'application/json' (and the body
    parses), with the text otherwise.  A rejected [fetch] and a response
    that is not [ok] never give a value. *)
Theorem request_value_needs_ok (f : FetchOutcome) (p : Payload) :
  request f = inr p <->
  exists response,
    f = Responded response /\ ok response = true /\
    match p with
    | Json v =>
        (exists c, contentType response = Some c /\ contains c "application/json") /\
        json response = Some v
    | Text s =>
        ~ (exists c, contentType response = Some c /\ contains c "application/json") /\
        s = body response
    end.
Proof.
  split.
  - destruct f as [|response]; cbn [request]; [discriminate|].
    unfold handleResponse. destruct (ok response) eqn:Hok; cbn [negb]; [|discriminate].
    intro H. exists response. split; [reflexivity|]. split; [exact Hok|].
    pose proof (jsonType_spec response) as Hjson.
    destruct (match contentType response with
              | Some c => includes c "application/json"
              | None => false
              end).
    + destruct (json response) as [v|]; [|discriminate]. injection H as <-.
      split; [now apply Hjson|reflexivity].
    + injection H as <-. split; [|reflexivity].
      intro Hc. apply Hjson in Hc. discriminate.
  - intros (response & -> & Hok & Hp). cbn [request]. unfold handleResponse.
    rewrite Hok. cbn [negb]. pose proof (jsonType_spec response) as Hjson.
    destruct p as [v|s].
    + destruct Hp as [Hc Hv]. apply Hjson in Hc. now rewrite Hc, Hv.
    + destruct Hp as [Hc ->].
      destruct (match contentType response with
                | Some c => includes c "application/json"
                | None => false
                end); [|reflexivity].
      elim Hc. now apply Hjson.
Qed.

Lemma failed_response_status (response : Response) :
  ok response = false ->
  exists text, request (Responded response) = inl (APIError (status response) text).
Proof.
  intro Hok. cbn [request]. unfold handleResponse. rewrite Hok. cbn [negb].
  eexists. reflexivity.
Qed.

(** X2: A response that is not [ok] always throws an [APIError] with the
    response's status.  Its message is the [message] of the body when the
    content type contains 'application/json', the body parses and that
    message is not empty; in every other case it is
    'HTTP <status>: <statusText>'.  Either way it is not empty, and neither
    is the text [getErrorMessage] shows for it. *)
Theorem failed_response_throws (response : Response) :
  ok response = false ->
  let fallback :=
    ("HTTP " ++ showStatus (status response) ++ ": " ++ statusText response)%string in
  let jsonType :=
    exists c, contentType response = Some c /\ contains c "application/json" in
  (forall errorData text,
     jsonType -> json response = Some errorData ->
     message errorData = Some text -> text <> "" ->
     request (Responded response) = inl (APIError (status response) text)) /\
  (~ jsonType \/ json response = None \/
   (exists errorData, json response = Some errorData /\
                      (message errorData = None \/ message errorData = Some "")) ->
   request (Responded response) = inl (APIError (status response) fallback)) /\
  exists text,
    request (Responded response) = inl (APIError (status response) text) /\
    text <> "" /\
    getErrorMessage (APIError (status response) text) <> "".
Proof.
  intros Hok fallback jsonType. subst fallback jsonType.
  pose proof (jsonType_spec response) as Hjson.
  cbn [request]. unfold handleResponse. rewrite Hok. cbn [negb].
  split; [|split].
  - intros errorData text Hc Hbody Hmsg Htext. apply Hjson in Hc.
    now rewrite Hc, Hbody, Hmsg, (orElse_some _ _ Htext).
  - intros [Hc|[Hbody|(errorData & Hbody & Hmsg)]].
    + destruct (match contentType response with
                | Some c => includes c "application/json"
                | None => false
                end); [|reflexivity].
      elim Hc. now apply Hjson.
    + rewrite Hbody. now destruct (match contentType response with
                                   | Some c => includes c "application/json"
                                   | None => false
                                   end).
    + rewrite Hbody.
      destruct (match contentType response with
                | Some c => includes c "application/json"
                | None => false
                end); [|reflexivity].
      destruct Hmsg as [-> | ->]; reflexivity.
  - eexists. split; [reflexivity|]. split; [|apply getErrorMessage_APIError_nonempty].
    destruct (match contentType response with
              | Some c => includes c "application/json"
              | None => false
              end); [destruct (json response) as [errorData|]|];
      try apply orElse_nonempty; discriminate.
Qed.

Section ServerMessages.
Context {ops : StringOps}.

(** A failed validate request ends the attempt with the error's text. *)
Lemma attempt_validate_failed (e qrCode : string) (vf cf : FetchOutcome) (err : Thrown)
    (st : State) :
  qrCode <> "" -> e <> "" -> settled vf = inl err ->
  result (attempt e qrCode vf cf st) =
    Some {| valid := Some false; success := None; attendee := None;
            message := Some (getErrorMessage err) |} /\
  toasts (attempt e qrCode vf cf st) = toasts st ++ [(ToastError, getErrorMessage err)].
Proof.
  intros Hq He Hv.
  erewrite attempt_ends_at_validate; eauto.
  2:{ unfold validate_resume, validate_body. rewrite Hv. reflexivity. }
  2:{ reflexivity. }
  split; reflexivity.
Qed.

Lemma settled_failed_json (response : Response) (c : string) (errorData : CheckInResult)
    (text : string) :
  ok response = false ->
  contentType response = Some c -> includes c "application/json" = true ->
  json response = Some errorData -> message errorData = Some text -> text <> "" ->
  settled (Responded response) = inl (APIError (status response) text).
Proof.
  intros Hok Hc Hjson Hbody Hmsg Htext.
  unfold settled. cbn [request]. unfold handleResponse.
  rewrite Hok, Hc, Hjson, Hbody, Hmsg. cbn [negb].
  now rewrite (orElse_some _ _ Htext).
Qed.

(** X3: The server's own message reaches the result panel: when the validate
    request is answered with an error status other than 403, 404 and 500
    and a JSON body carrying a non-empty [message], that message is the
    result's message and the error toast's title. *)
Theorem server_message_reaches_result
    (selectedEvent qrCode c text : string) (response : Response)
    (errorData : CheckInResult) (checkInFetch : FetchOutcome) (st : State) :
  qrCode <> "" -> selectedEvent <> "" ->
  ok response = false ->
  contentType response = Some c -> includes c "application/json" = true ->
  json response = Some errorData -> message errorData = Some text -> text <> "" ->
  status response <> 403%N -> status response <> 404%N -> status response <> 500%N ->
  let st' := attempt selectedEvent qrCode (Responded response) checkInFetch st in
  result st' = Some {| valid := Some false; success := None; attendee := None;
                       message := Some text |} /\
  toasts st' = toasts st ++ [(ToastError, text)].
Proof.
  intros Hq He Hok Hc Hjson Hbody Hmsg Htext H403 H404 H500 st'. subst st'.
  pose proof (settled_failed_json _ _ _ _ Hok Hc Hjson Hbody Hmsg Htext) as Hv.
  destruct (attempt_validate_failed _ _ _ checkInFetch _ st Hq He Hv) as [Hr Ht].
  assert (Hshown : getErrorMessage (APIError (status response) text) = text).
  { unfold getErrorMessage.
    apply N.eqb_neq in H403, H404, H500. rewrite H403, H404, H500.
    rewrite !(orElse_some _ _ Htext).
    destruct (status response =? 400)%N, (status response =? 401)%N; reflexivity. }
  rewrite Hshown in Hr, Ht. split; assumption.
Qed.

(** X4: For the statuses 403, 404 and 500 the text shown is fixed, whatever the
    response's body says. *)
Theorem fixed_text_for_status
    (selectedEvent qrCode : string) (response : Response)
    (checkInFetch : FetchOutcome) (st : State) :
  qrCode <> "" -> selectedEvent <> "" ->
  ok response = false ->
  status response = 403%N \/ status response = 404%N \/ status response = 500%N ->
  let st' := attempt selectedEvent qrCode (Responded response) checkInFetch st in
  let shown :=
    if (status response =? 403)%N then "You don't have permission to perform this action."
    else if (status response =? 404)%N then "Resource not found."
    else "Server error. Please try again later." in
  result st' = Some {| valid := Some false; success := None; attendee := None;
                       message := Some shown |} /\
  toasts st' = toasts st ++ [(ToastError, shown)].
Proof.
  intros Hq He Hok Hstatus st' shown. subst st' shown.
  destruct (failed_response_status response Hok) as (text & Hreq).
  assert (Hv : settled (Responded response) = inl (APIError (status response) text)).
  { unfold settled. now rewrite Hreq. }
  destruct (attempt_validate_failed _ _ _ checkInFetch _ st Hq He Hv) as [Hr Ht].
  rewrite Hr, Ht. unfold getErrorMessage.
  destruct Hstatus as [H|[H|H]]; rewrite H; split; reflexivity.
Qed.

End ServerMessages.

(** ** The check-in page *)

Section Page.
Context {ops : StringOps}.

(** X5: Loading the events: one [GET /event]; a non-empty list is stored and its
    first event selected, so that the selection is one of the events listed;
    an empty list is stored and the selection kept; a failure keeps both and
    raises the toast 'Failed to load events'.  In each case the function
    ends and nothing is thrown. *)
Theorem fetchEvents_outcomes (st : State) (outcome : Thrown + list Event) :
  let st' := step (EventsSettled (length (tasks st)) outcome) (fetchEvents st) in
  apiLog st' = apiLog st ++ [GET "/event"] /\
  tasks st' = tasks st /\ uncaught st' = uncaught st /\
  match outcome with
  | inr (first :: rest) =>
      events st' = first :: rest /\ selectedEvent st' = id first /\
      In (selectedEvent st') (map id (events st')) /\ toasts st' = toasts st
  | inr [] =>
      events st' = [] /\ selectedEvent st' = selectedEvent st /\ toasts st' = toasts st
  | inl _ =>
      events st' = events st /\ selectedEvent st' = selectedEvent st /\
      toasts st' = toasts st ++ [(ToastError, "Failed to load events")]
  end.
Proof.
  intro st'. subst st'. cbn [step]. unfold fetchEvents.
  cbn [spawn setTasks tasks callApi]. rewrite nth_error_snoc.
  destruct outcome as [err|[|first rest]];
    cbn [fetchEvents_resume finish setEvents setSelectedEvent showError showToast spawn
         setTasks tasks apiLog uncaught events selectedEvent toasts callApi];
    rewrite dropNth_snoc; repeat split.
  cbn [map In]. now left.
Qed.











Lemma start_then_render (st : State) :
  formVisible st = true -> scanningQueued st = None ->
  run [ClickStartScanning; Flush] st =
  startScanning (commitScanning true (setScanning true st)).
Proof.
  intros Hidle Hqueue.
  assert (Hscan : scanning st = false).
  { unfold formVisible in Hidle. destruct (scanning st); [discriminate|reflexivity]. }
  cbn [run fold_left step]. rewrite Hidle. unfold flush.
  cbn [scanningQueued setScanning scanning]. now rewrite Hscan.
Qed.

(** X7: When the camera cannot be listed the page goes back to idle and lets
    the reader go.  From the idle screen, "Start Scanning", the render, a
    device enumeration that throws (a value whose [message] can be read:
    anything but [null] and [undefined]) or that lists no device, and the
    next render leave [scanning] off, the reader reset and unreferenced and
    no subscription added; [cameraError] holds the error's message (or
    'Failed to access camera') with the toast 'Camera access denied' in the
    first case, and 'No camera found' with no toast in the second. *)
Theorem camera_failure_returns_to_idle
    (st : State) (outcome : Thrown + list MediaDeviceInfo) (text : option string) :
  formVisible st = true -> scanningQueued st = None ->
  match outcome with
  | inl err => thrownMessage err = inr text
  | inr videoInputDevices => videoInputDevices = []
  end ->
  let st' := run [ClickStartScanning; Flush;
                  DevicesSettled (length (tasks st)) outcome; Flush] st in
  scanning st' = false /\ scanningQueued st' = None /\ codeReaderRef st' = None /\
  resets st' = resets st ++ [nextReader st] /\
  decoding st' = filter (fun s => negb (reader s =? nextReader st)) (decoding st) /\
  tasks st' = tasks st /\ apiLog st' = apiLog st /\ uncaught st' = uncaught st /\
  match outcome with
  | inl err =>
      cameraError st' = Some (orElse text "Failed to access camera") /\
      toasts st' = toasts st ++ [(ToastError, "Camera access denied")]
  | inr _ =>
      cameraError st' = Some "No camera found" /\ toasts st' = toasts st
  end.
Proof.
  intros Hidle Hqueue Hout st'. subst st'.
  change (run [ClickStartScanning; Flush;
               DevicesSettled (length (tasks st)) outcome; Flush] st)
    with (step Flush (step (DevicesSettled (length (tasks st)) outcome)
                        (run [ClickStartScanning; Flush] st))).
  rewrite (start_then_render st Hidle Hqueue).
  destruct st as [sc sq res mc ld evs sel ce ts ref nr dec rs log tk unc].
  unfold startScanning.
  cbn [step spawn setTasks tasks newReader commitScanning setCameraError
       setScanning nextReader selectedEvent].
  rewrite nth_error_snoc.
  destruct outcome as [err|devices]; [|subst devices];
    unfold startScanning_resume, startScanning_body, startScanning_catch;
    rewrite ?Hout;
    unfold flush, stopScanning; cbn; rewrite dropNth_snoc; repeat split.
Qed.

(** X8: The event a scan validates against is the one selected when the scan
    started.  Changing the selection while the reader is decoding changes
    [selectedEvent] but not the event of the session: a code then decoded
    whose attendee belongs to the session's event goes on to the check-in
    request, whatever is selected by then. *)
Theorem session_event_fixed_at_start
    (st : State) (subscription : Subscription) (r : nat) (qrCode other : string)
    (validateFetch : FetchOutcome) (validateResponse : CheckInResult) (a : Attendee) :
  find (fun s => reader s =? r) (decoding st) = Some subscription ->
  qrCode <> "" -> sessionEvent subscription <> "" ->
  settled validateFetch = inr validateResponse ->
  valid validateResponse = Some true ->
  attendee validateResponse = Some a ->
  eventId a = sessionEvent subscription ->
  truthyFlag (alreadyCheckedIn a) = false ->
  let st' := run [SelectEvent other; Decoded r (Some qrCode);
                  ApiSettled (length (tasks st)) validateFetch] st in
  selectedEvent st' = other /\
  apiLog st' = apiLog st ++ [GET (validateEndpoint qrCode); POST (checkInEndpoint qrCode)] /\
  tasks st' = tasks st ++ [AwaitCheckIn qrCode] /\
  result st' = result st.
Proof.
  intros Hfind Hq He Hv Hvalid Hatt Hevent Hnot st'. subst st'.
  apply String.eqb_eq in Hevent.
  destruct st as [sc sq res mc ld evs sel ce ts ref nr dec rs log tk unc].
  cbn [decoding tasks] in *.
  cbn [run fold_left]. cbn [step decoding setSelectedEvent]. rewrite Hfind.
  cbn [decodeCallback]. rewrite (truthy_true _ Hq).
  unfold validateAndCheckIn. rewrite (truthy_true _ Hq), (truthy_true _ He).
  cbn [negb orb spawn setTasks tasks callApi setLoading setScanning].
  rewrite nth_error_snoc.
  unfold validate_resume, validate_body. rewrite Hv, Hvalid, Hatt. cbn [truthyFlag].
  rewrite Hevent, Hnot.
  cbn. rewrite putNth_snoc, <- app_assoc. repeat split.
Qed.

End Page.

(** ** What a turn of the event loop can do *)

Lemma countIf_dropNth {A} (p : A -> bool) (l : list A) (k : nat) (t : A) :
  nth_error l k = Some t ->
  countIf p l = countIf p (dropNth k l) + (if p t then 1 else 0).
Proof.
  unfold countIf. revert k. induction l as [|x l IH]; intros [|k] H;
    cbn [nth_error] in H; try discriminate.
  - injection H as ->. cbn [dropNth filter]. destruct (p t); cbn [length]; lia.
  - cbn [dropNth filter]. specialize (IH k H).
    destruct (p x); cbn [length]; lia.
Qed.

Lemma countIf_putNth {A} (p : A -> bool) (l : list A) (k : nat) (t y : A) :
  nth_error l k = Some t ->
  countIf p (putNth k y l) + (if p t then 1 else 0) =
  countIf p l + (if p y then 1 else 0).
Proof.
  unfold countIf. revert k. induction l as [|x l IH]; intros [|k] H;
    cbn [nth_error] in H; try discriminate.
  - injection H as ->. cbn [putNth filter]. destruct (p t), (p y); cbn [length]; lia.
  - cbn [putNth filter]. specialize (IH k H).
    destruct (p x); cbn [length]; lia.
Qed.

Section Effects.
Context {ops : StringOps}.

Lemma step_effect (a : Action) (st : State) : Effect a st (step a st).
Proof.
  destruct a; cbn [step].
  - destruct (formVisible st); now apply Unchanged.
  - destruct (scanning st); now apply Unchanged.
  - destruct (result st); now apply Unchanged.
  - now apply Unchanged.
  - destruct (formVisible st); now apply Unchanged.
  - destruct (formVisible st && truthy (trim (manualCode st)) && negb (loading st)) eqn:Hen;
      [|now apply Unchanged].
    assert (Hload : loading st = false).
    { apply andb_true_iff in Hen. destruct Hen as [_ Hen].
      now apply negb_true_iff in Hen. }
    unfold handleManualSubmit. destruct (truthy (trim (manualCode st))); [|now apply Unchanged].
    unfold validateAndCheckIn.
    destruct (negb (truthy (trim (manualCode st))) || negb (truthy (selectedEvent st))).
    + now apply Unchanged.
    + now apply (Started _ _ _ (trim (manualCode st)) (selectedEvent st)).
  - unfold stopScanning. destruct (codeReaderRef st); now apply Unchanged.
  - unfold flush. destruct (scanningQueued st) as [v|]; [|now apply Unchanged].
    destruct (Bool.eqb v (scanning st)); [now apply Unchanged|].
    destruct v.
    + now apply (Enumerating _ _ _ (nextReader st) (selectedEvent st)).
    + unfold stopScanning. cbn [codeReaderRef commitScanning].
      destruct (codeReaderRef st); now apply Unchanged.
  - destruct (find _ (decoding st)) as [s|]; [|now apply Unchanged].
    unfold decodeCallback. destruct text as [qrCode|]; [|now apply Unchanged].
    destruct (truthy qrCode); [|now apply Unchanged].
    unfold validateAndCheckIn.
    destruct (negb (truthy qrCode) || negb (truthy (sessionEvent s))).
    + now apply Unchanged.
    + apply (Started _ _ _ qrCode (sessionEvent s)); try reflexivity.
      intros [].
  - destruct (find _ (decoding st)); now apply Unchanged.
  - destruct (nth_error (tasks st) k) as [[| | |]|] eqn:Hk; try now apply Unchanged.
    apply (Finished _ _ _ k AwaitEvents Hk);
      destruct outcome as [err|[|first rest]]; reflexivity.
  - destruct (nth_error (tasks st) k) as [[|r e| |]|] eqn:Hk; try now apply Unchanged.
    apply (Finished _ _ _ k (AwaitDevices r e) Hk);
      unfold startScanning_resume, startScanning_body, startScanning_catch;
      destruct outcome as [err|devices];
      try (destruct (thrownMessage err); reflexivity);
      destruct (selectDevice devices); try reflexivity;
      destruct (videoRef_current st); reflexivity.
  - destruct (nth_error (tasks st) k) as [[| |qrCode e|qrCode]|] eqn:Hk;
      try now apply Unchanged.
    + unfold validate_resume, validate_body.
      destruct (settled f) as [err|r];
        [now apply (Finished _ _ _ k (AwaitValidate qrCode e) Hk)|].
      destruct (if truthyFlag (valid r) then attendee r else None) as [att|];
        [|now apply (Finished _ _ _ k (AwaitValidate qrCode e) Hk)].
      destruct (negb (eventId att =? e)%string);
        [now apply (Finished _ _ _ k (AwaitValidate qrCode e) Hk)|].
      destruct (truthyFlag (alreadyCheckedIn att));
        [now apply (Finished _ _ _ k (AwaitValidate qrCode e) Hk)|].
      now apply (Passed _ _ _ k qrCode e Hk).
    + unfold checkIn_resume, checkIn_body.
      destruct (settled f) as [err|r];
        [|destruct (negb (truthyFlag (success r)))];
        now apply (Finished _ _ _ k (AwaitCheckIn qrCode) Hk).
Qed.

End Effects.

(** ** Invariants of every run of the page *)

Section Invariants.
Context {ops : StringOps}.

Lemma run_snoc (actions : list Action) (a : Action) (st : State) :
  run (actions ++ [a]) st = step a (run actions st).
Proof. unfold run. now rewrite fold_left_app. Qed.

Lemma validateEndpoint_eqb (q q' : string) :
  (validateEndpoint q' =? validateEndpoint q)%string = (q' =? q)%string.
Proof.
  destruct (q' =? q)%string eqn:H.
  - apply String.eqb_eq in H. subst. apply String.eqb_refl.
  - apply String.eqb_neq. apply String.eqb_neq in H. intro E. apply H.
    unfold validateEndpoint in E. cbn [String.append] in E. now injection E.
Qed.

Lemma checkInEndpoint_eqb (q q' : string) :
  (checkInEndpoint q' =? checkInEndpoint q)%string = (q' =? q)%string.
Proof.
  destruct (q' =? q)%string eqn:H.
  - apply String.eqb_eq in H. subst. apply String.eqb_refl.
  - apply String.eqb_neq. apply String.eqb_neq in H. intro E. apply H.
    unfold checkInEndpoint in E. cbn [String.append] in E. now injection E.
Qed.

(** X9: The loading overlay is never left on: in every run of the page, when no
    [validateAndCheckIn] is suspended, [loading] is off. *)
Theorem loading_cleared_when_idle (actions : list Action) :
  countIf isChecking (tasks (run actions mounted)) = 0 ->
  loading (run actions mounted) = false.
Proof.
  induction actions as [|a actions IH] using rev_ind; [reflexivity|].
  rewrite run_snoc.
  destruct (step_effect a (run actions mounted))
    as [H1 H2 H3|q e H1 H2 H3 H4|r e H1 H2 H3|k t H0 H1 H2 H3|k q e H0 H1 H2 H3];
    rewrite H2, H3.
  - exact IH.
  - rewrite countIf_snoc. cbn [isChecking]. lia.
  - rewrite countIf_snoc. cbn [isChecking]. rewrite Nat.add_0_r. exact IH.
  - intro Hc. rewrite (countIf_dropNth isChecking _ _ _ H0) in IH.
    destruct (isChecking t); [reflexivity|]. apply IH. lia.
  - intro Hc.
    pose proof (countIf_putNth isChecking _ _ _ (AwaitCheckIn q) H0) as Hp.
    cbn [isChecking] in Hp. apply IH. lia.
Qed.

(** X10: Manual entry cannot double-submit: in every run of the page without a
    decode callback at most one [validateAndCheckIn] is in flight, the
    submit button being disabled while [loading] is on. *)
Theorem manual_single_in_flight (actions : list Action) :
  Forall notDecoded actions ->
  countIf isChecking (tasks (run actions mounted)) <= 1.
Proof.
  intro Hall.
  assert (H : countIf isChecking (tasks (run actions mounted)) = 0 /\
              loading (run actions mounted) = false \/
              countIf isChecking (tasks (run actions mounted)) = 1 /\
              loading (run actions mounted) = true);
    [|destruct H as [[H _]|[H _]]; lia].
  induction actions as [|a actions IH] using rev_ind; [left; split; reflexivity|].
  apply Forall_app in Hall. destruct Hall as [Hall Ha].
  inversion Ha as [|? ? Hnd _]; subst.
  specialize (IH Hall). rewrite run_snoc.
  destruct (step_effect a (run actions mounted))
    as [H1 H2 H3|q e H1 H2 H3 H4|r e H1 H2 H3|k t H0 H1 H2 H3|k q e H0 H1 H2 H3];
    rewrite H2, H3.
  - exact IH.
  - rewrite countIf_snoc. cbn [isChecking]. specialize (H4 Hnd).
    destruct IH as [[Hc Hl]|[Hc Hl]]; [right; split; [lia|reflexivity]|congruence].
  - rewrite countIf_snoc. cbn [isChecking]. rewrite Nat.add_0_r. exact IH.
  - rewrite (countIf_dropNth isChecking _ _ _ H0) in IH.
    destruct (isChecking t).
    + left. split; [|reflexivity]. destruct IH as [[Hc _]|[Hc _]]; lia.
    + rewrite Nat.add_0_r in IH. exact IH.
  - pose proof (countIf_putNth isChecking _ _ _ (AwaitCheckIn q) H0) as Hp.
    cbn [isChecking] in Hp.
    destruct IH as [[Hc Hl]|[Hc Hl]]; [left|right]; split; try assumption; lia.
Qed.

(** X11: The check-in request never runs ahead of the validate request: in every
    run of the page and for every code, the check-in requests sent for the
    code, together with the validations of it still waiting for their
    answer, are no more than the validate requests sent for it. *)
Theorem checkIn_never_exceeds_validate (actions : list Action) (qrCode : string) :
  let st := run actions mounted in
  countIf (checksInCode qrCode) (apiLog st) + countIf (awaitsValidate qrCode) (tasks st)
  <= countIf (validatesCode qrCode) (apiLog st).
Proof.
  cbv zeta.
  induction actions as [|a actions IH] using rev_ind; [cbn; lia|].
  rewrite run_snoc.
  destruct (step_effect a (run actions mounted))
    as [H1 H2 H3|q e H1 H2 H3 H4|r e H1 H2 H3|k t H0 H1 H2 H3|k q e H0 H1 H2 H3];
    rewrite H1, H2.
  - exact IH.
  - rewrite !countIf_snoc. cbn [checksInCode validatesCode awaitsValidate].
    rewrite validateEndpoint_eqb. destruct (q =? qrCode)%string; lia.
  - rewrite !countIf_snoc. cbn [awaitsValidate]. lia.
  - rewrite (countIf_dropNth (awaitsValidate qrCode) _ _ _ H0) in IH. lia.
  - pose proof (countIf_putNth (awaitsValidate qrCode) _ _ _ (AwaitCheckIn q) H0) as Hp.
    cbn [awaitsValidate] in Hp.
    rewrite !countIf_snoc. cbn [checksInCode validatesCode].
    rewrite checkInEndpoint_eqb. destruct (q =? qrCode)%string; lia.
Qed.

End Invariants.

(** ** Toasts *)

Lemma decimal_inj (k k' : N) : UseToast.decimal k = UseToast.decimal k' -> k = k'.
Proof.
  unfold UseToast.decimal. intro H.
  assert (Hnil : forall n, N.to_uint n <> Decimal.Nil).
  { intros [|p]; [discriminate|]. apply DecimalPos.Unsigned.to_uint_nonnil. }
  pose proof (NilZero.usu _ (Hnil k)) as Hk.
  pose proof (NilZero.usu _ (Hnil k')) as Hk'.
  rewrite H, Hk' in Hk. injection Hk as Hk.
  symmetry. now apply DecimalN.Unsigned.to_uint_inj.
Qed.

Lemma toast_name_inj (k k' : N) :
  ("toast-" ++ UseToast.decimal k)%string = ("toast-" ++ UseToast.decimal k')%string ->
  k = k'.
Proof.
  cbn [String.append]. intro H. injection H as H. now apply decimal_inj.
Qed.

Lemma NoDup_map_injective {A B} (f : A -> B) (l : list A) :
  (forall x y, f x = f y -> x = y) -> NoDup l -> NoDup (map f l).
Proof.
  intros Hinj Hl. induction Hl as [|x l Hx Hl IH]; cbn [map]; constructor; [|exact IH].
  intro Hin. apply in_map_iff in Hin. destruct Hin as (y & Hy & Hin).
  apply Hinj in Hy. now subst.
Qed.

Lemma increment_bounds (n : N) :
  (n <= UseToast.increment n)%N /\
  (UseToast.increment n <= n + 1)%N /\
  ((n < 2 ^ 53)%N -> UseToast.increment n = (n + 1)%N).
Proof.
  unfold UseToast.increment. destruct (n <? 2 ^ 53)%N eqn:H.
  - repeat split; lia.
  - apply N.ltb_ge in H. repeat split; lia.
Qed.

Lemma filter_names (i : string) (l : list UseToast.ToastMessage) (numbers : list N) :
  map UseToast.id l = map (fun k => ("toast-" ++ UseToast.decimal k)%string) numbers ->
  map UseToast.id (filter (fun t => negb (UseToast.id t =? i)%string) l) =
  map (fun k => ("toast-" ++ UseToast.decimal k)%string)
      (filter (fun k => negb (("toast-" ++ UseToast.decimal k) =? i)%string) numbers).
Proof.
  revert numbers. induction l as [|t l IH]; intros [|k numbers] H; cbn [map] in H;
    try discriminate; [reflexivity|].
  injection H as Ht Hl. cbn [filter]. rewrite Ht.
  destruct (negb _); cbn [map]; [rewrite Ht; f_equal|]; now apply IH.
Qed.

Lemma perform_issued (o : UseToast.Op) (s : UseToast.Store) :
  (UseToast.toastId s < 2 ^ 53)%N ->
  UseToast.Issued s -> UseToast.Issued (UseToast.perform o s).
Proof.
  intros Hbound (numbers & Hmap & Hnodup & Hle).
  destruct (increment_bounds (UseToast.toastId s)) as (Hge & _ & Hinc).
  specialize (Hinc Hbound).
  destruct o as [type title message duration| |i]; cbn [UseToast.perform].
  - exists (numbers ++ [UseToast.increment (UseToast.toastId s)]).
    unfold UseToast.showToast. cbn [UseToast.toasts UseToast.toastId].
    rewrite !map_app, Hmap. cbn [map UseToast.id]. split; [reflexivity|]. split.
    + apply NoDup_app; [assumption|repeat constructor; intros []|].
      intros x Hx [<-|[]]. rewrite Forall_forall in Hle. apply Hle in Hx. lia.
    + apply Forall_app. split; [|repeat constructor; lia].
      eapply Forall_impl; [|exact Hle]. cbn beta. intros; lia.
  - exists numbers. unfold UseToast.showElsewhere.
    cbn [UseToast.toasts UseToast.toastId]. repeat split; try assumption.
    eapply Forall_impl; [|exact Hle]. cbn beta. intros; lia.
  - exists (filter (fun k => negb (("toast-" ++ UseToast.decimal k) =? i)%string) numbers).
    unfold UseToast.closeToast. cbn [UseToast.toasts UseToast.toastId].
    split; [now apply filter_names|]. split; [now apply NoDup_filter|].
    rewrite Forall_forall in *. intros x Hx. apply filter_In in Hx. now apply Hle.
Qed.

Lemma perform_counter (o : UseToast.Op) (s : UseToast.Store) :
  (UseToast.toastId (UseToast.perform o s) <= UseToast.toastId s + 1)%N.
Proof.
  destruct (increment_bounds (UseToast.toastId s)) as (_ & Hle & _).
  destruct o; cbn [UseToast.perform UseToast.showToast UseToast.showElsewhere
                   UseToast.closeToast UseToast.toastId]; lia.
Qed.

Lemma run_issued (ops : list UseToast.Op) (s : UseToast.Store) :
  (UseToast.toastId s + N.of_nat (length ops) <= 2 ^ 53)%N ->
  UseToast.Issued s -> UseToast.Issued (UseToast.run ops s).
Proof.
  revert s. induction ops as [|o ops IH]; intros s Hbound Hs; [exact Hs|].
  cbn [UseToast.run fold_left]. fold (UseToast.run ops (UseToast.perform o s)).
  cbn [length] in Hbound. pose proof (perform_counter o s).
  apply IH; [lia|]. apply perform_issued; [lia|exact Hs].
Qed.

Lemma issued_unique (s : UseToast.Store) :
  UseToast.Issued s -> NoDup (map UseToast.id (UseToast.toasts s)).
Proof.
  intros (numbers & Hmap & Hnodup & _). rewrite Hmap.
  apply NoDup_map_injective; [|assumption]. intros x y. apply toast_name_inj.
Qed.

(** X12: Toast identifiers are unique.  Whatever toasts are shown (by this
    component or by another one sharing the counter) and closed, as long as
    the counter stays within the exact integers of a JavaScript number, no
    two toasts on display carry the same [id]. *)
Theorem toast_ids_unique (ops : list UseToast.Op) :
  (N.of_nat (length ops) <= 2 ^ 53)%N ->
  NoDup (map UseToast.id (UseToast.toasts (UseToast.run ops UseToast.empty))).
Proof.
  intro Hbound. apply issued_unique. apply run_issued.
  - cbn [UseToast.empty UseToast.toastId]. lia.
  - exists []. repeat split; constructor.
Qed.

Lemma filter_keeps_others (i : string) (l : list UseToast.ToastMessage) :
  ~ In i (map UseToast.id l) ->
  filter (fun t => negb (UseToast.id t =? i)%string) l = l.
Proof.
  induction l as [|t l IH]; cbn [map In filter]; [reflexivity|].
  intro H. destruct (UseToast.id t =? i)%string eqn:Ht.
  - apply String.eqb_eq in Ht. tauto.
  - cbn [negb]. f_equal. tauto.
Qed.

(** X13: [closeToast] removes the toast with the given [id] and nothing else: the
    other toasts stay, in their order, and the counter is not touched.  An
    [id] that no toast carries closes nothing. *)
Theorem closeToast_removes_exactly
    (ops : list UseToast.Op) (before after : list UseToast.ToastMessage)
    (toast : UseToast.ToastMessage) :
  (N.of_nat (length ops) <= 2 ^ 53)%N ->
  UseToast.toasts (UseToast.run ops UseToast.empty) = before ++ toast :: after ->
  let s := UseToast.run ops UseToast.empty in
  UseToast.toasts (UseToast.closeToast (UseToast.id toast) s) = before ++ after /\
  UseToast.toastId (UseToast.closeToast (UseToast.id toast) s) = UseToast.toastId s /\
  forall i, ~ In i (map UseToast.id (UseToast.toasts s)) -> UseToast.closeToast i s = s.
Proof.
  intros Hbound Hsplit s. subst s.
  assert (Hnodup : NoDup (map UseToast.id
                                (UseToast.toasts (UseToast.run ops UseToast.empty)))).
  { apply issued_unique. apply run_issued.
    - cbn [UseToast.empty UseToast.toastId]. lia.
    - exists []. repeat split; constructor. }
  set (s := UseToast.run ops UseToast.empty) in *. clearbody s.
  split; [|split; [reflexivity|]].
  - unfold UseToast.closeToast. cbn [UseToast.toasts]. rewrite Hsplit in *.
    rewrite map_app in Hnodup. cbn [map] in Hnodup.
    apply NoDup_remove in Hnodup. destruct Hnodup as [_ Hfresh].
    rewrite filter_app. cbn [filter]. rewrite String.eqb_refl. cbn [negb].
    rewrite !filter_keeps_others; [reflexivity| |];
      intro Hin; apply Hfresh; apply in_or_app; auto.
  - intros i Hi. destruct s as [n l]. unfold UseToast.closeToast.
    cbn [UseToast.toasts UseToast.toastId] in *. now rewrite filter_keeps_others.
Qed.

(** ** Route protection *)

Lemma protected_not_login (pathname : string) :
  existsb (fun route => (pathname =? route)%string || prefix (route ++ "/") pathname)
    protectedRoutes = true ->
  pathname <> "/login".
Proof. intros H ->. vm_compute in H. discriminate. Qed.

(** X14: The middleware redirects in two cases only, and never in a circle: a
    request without a token is sent nowhere but to '/login', and only from
    another path; a request with a token is redirected only from '/login',
    to '/'; and the page redirected to is served, with the same cookie. *)
Theorem middleware_redirects (pathname target : string) (token : option string) :
  middleware pathname token = RedirectTo target ->
  (target = "/login" /\ pathname <> "/login" /\
   (token = None \/ token = Some "")
   \/
   target = "/" /\ pathname = "/login" /\
   exists t, token = Some t /\ t <> "") /\
  middleware target token = NextResponse.
Proof.
  unfold middleware at 1.
  destruct (existsb _ protectedRoutes) eqn:Hprot.
  - destruct token as [t|]; [destruct (truthy t) eqn:Ht|]; cbn [andb negb].
    + rewrite andb_true_r.
      destruct (existsb _ publicRoutes && (pathname =? "/login")%string) eqn:Hpub;
        [|discriminate].
      apply andb_true_iff in Hpub. destruct Hpub as [_ Hlogin].
      apply String.eqb_eq in Hlogin. now elim (protected_not_login _ Hprot).
    + intros [= <-]. split; [|unfold middleware; rewrite Ht; reflexivity].
      left. split; [reflexivity|]. split; [now apply protected_not_login|].
      right. unfold truthy in Ht. apply negb_false_iff in Ht.
      apply String.eqb_eq in Ht. now subst.
    + intros [= <-]. split; [|reflexivity].
      left. split; [reflexivity|]. split; [now apply protected_not_login|]. now left.
  - cbn [andb].
    destruct (existsb _ publicRoutes) eqn:Hpub; cbn [andb]; [|discriminate].
    destruct token as [t|]; [destruct (truthy t) eqn:Ht|]; cbn [andb]; try discriminate.
    destruct (pathname =? "/login")%string eqn:Hlogin; [|discriminate].
    intros [= <-]. apply String.eqb_eq in Hlogin. split.
    + right. split; [reflexivity|]. split; [assumption|].
      exists t. split; [reflexivity|].
      unfold truthy in Ht. apply negb_true_iff in Ht. now apply String.eqb_neq.
    + unfold middleware. rewrite Ht. reflexivity.
Qed.

(** X15: A protected route and everything under it needs the cookie: for a path
    that is one of the protected routes or continues one after a slash, a
    request without a token is redirected to '/login' and a request with
    one is served. *)
Theorem protected_routes_need_token (route rest pathname : string) :
  In route protectedRoutes ->
  pathname = route \/ pathname = (route ++ "/" ++ rest)%string ->
  middleware pathname None = RedirectTo "/login" /\
  middleware pathname (Some "") = RedirectTo "/login" /\
  forall t, t <> "" -> middleware pathname (Some t) = NextResponse.
Proof.
  intros Hroute Hpath.
  assert (Hprot : existsb (fun r => (pathname =? r)%string || prefix (r ++ "/") pathname)
                    protectedRoutes = true).
  { apply existsb_exists. exists route. split; [assumption|].
    destruct Hpath as [->| ->].
    - now rewrite String.eqb_refl.
    - apply orb_true_iff. right.
      change (route ++ "/" ++ rest)%string with (route ++ ("/" ++ rest))%string.
      replace (route ++ ("/" ++ rest))%string with ((route ++ "/") ++ rest)%string.
      + apply prefix_append.
      + clear. induction route as [|c route IH]; cbn [String.append];
          [reflexivity|now rewrite IH]. }
  unfold middleware. rewrite Hprot. cbn [truthy String.eqb negb andb].
  split; [reflexivity|]. split; [reflexivity|].
  intros t Ht. rewrite (truthy_true _ Ht). cbn [negb andb].
  destruct (pathname =? "/login")%string eqn:Hlogin.
  - apply String.eqb_eq in Hlogin. now elim (protected_not_login _ Hprot).
  - now rewrite !andb_false_r.
Qed.

(** ** Every attempt ends in a result *)

Section Results.
Context {ops : StringOps}.

(** X16: However the two requests settle, an attempt for a code with an event
    selected ends: the result panel is populated, exactly one toast is
    raised, [loading] is off, the function is no longer suspended and
    nothing is thrown.  The result is marked valid and the toast is the
    success one only when the check-in request was sent and answered
    [success]; the only other valid result is 'Already checked in'. *)
Theorem attempt_always_ends_in_result
    (selectedEvent qrCode : string) (validateFetch checkInFetch : FetchOutcome)
    (st : State) :
  qrCode <> "" -> selectedEvent <> "" ->
  let st' := attempt selectedEvent qrCode validateFetch checkInFetch st in
  exists r kind title,
    result st' = Some r /\
    toasts st' = toasts st ++ [(kind, title)] /\
    loading st' = false /\ tasks st' = tasks st /\ uncaught st' = uncaught st /\
    (kind = ToastSuccess ->
     valid r = Some true /\
     apiLog st' = apiLog st ++ [GET (validateEndpoint qrCode);
                                POST (checkInEndpoint qrCode)] /\
     exists checkInResponse,
       settled checkInFetch = inr checkInResponse /\
       success checkInResponse = Some true /\
       attendee r = attendee checkInResponse) /\
    (valid r = Some true -> kind = ToastSuccess \/ message r = Some "Already checked in").
Proof.
  intros Hq He st'. subst st'.
  set (st1 := spawn (AwaitValidate qrCode selectedEvent)
                (callApi (GET (validateEndpoint qrCode)) (setLoading true st))).
  assert (Hdone : forall s,
             validate_resume selectedEvent qrCode (settled validateFetch) st1 = Done s ->
             tasks s = tasks st ++ [AwaitValidate qrCode selectedEvent] ->
             attempt selectedEvent qrCode validateFetch checkInFetch st =
             setTasks (tasks st) s).
  { intros s Hs Ht. now apply attempt_ends_at_validate. }
  unfold validate_resume, validate_body in Hdone.
  destruct (settled validateFetch) as [err|v] eqn:Hv.
  { rewrite (Hdone _ eq_refl eq_refl).
    eexists _, ToastError, _. repeat split; discriminate. }
  destruct (if truthyFlag (valid v) then attendee v else None) as [a|] eqn:Hrec.
  2:{ rewrite (Hdone _ eq_refl eq_refl).
      eexists _, ToastError, _. repeat split; discriminate. }
  destruct (negb (eventId a =? selectedEvent)%string) eqn:Hevent.
  { rewrite (Hdone _ eq_refl eq_refl).
    eexists _, ToastError, _. repeat split; discriminate. }
  destruct (truthyFlag (alreadyCheckedIn a)) eqn:Halready.
  { rewrite (Hdone _ eq_refl eq_refl).
    eexists _, ToastError, _. repeat split; try discriminate. intros _. now right. }
  clear Hdone. subst st1.
  erewrite attempt_goes_to_checkIn; eauto.
  2:{ unfold validate_resume, validate_body.
      rewrite Hv, Hrec, Hevent, Halready. reflexivity. }
  2:{ reflexivity. }
  unfold checkIn_resume, checkIn_body.
  destruct (settled checkInFetch) as [err|c] eqn:Hc.
  { cbn [tryCatchFinally finish]. observe. rewrite dropNth_snoc.
    eexists _, ToastError, _. repeat split; discriminate. }
  destruct (truthyFlag (success c)) eqn:Hsucc; cbn [negb tryCatchFinally finish];
    observe; rewrite dropNth_snoc.
  - eexists _, ToastSuccess, _. split; [reflexivity|]. split; [reflexivity|].
    split; [reflexivity|]. split; [reflexivity|]. split; [reflexivity|]. split.
    + intros _. split; [reflexivity|]. split; [now rewrite <- app_assoc|].
      exists c. split; [reflexivity|]. split; [now apply truthyFlag_true|reflexivity].
    + intros _. now left.
  - eexists _, ToastError, _. repeat split; discriminate.
Qed.


End Results.

(** ** Concrete runs of the further properties *)

Lemma request_value_needs_ok_witness :
  (exists response,
     okJson (recognised (sampleAttendee "E1" None)) = Responded response /\
     ok response = true /\
     (exists c, contentType response = Some c /\ contains c "application/json") /\
     json response = Some (recognised (sampleAttendee "E1" None))) /\
  request (Responded {| ok := true; status := 200; statusText := "OK";
                        contentType := Some "text/csv"; json := None; jsonError := "";
                        body := "name,email" |}) = inr (Text "name,email").
Proof.
  split.
  - exact (proj1 (request_value_needs_ok (okJson (recognised (sampleAttendee "E1" None)))
                    (Json (recognised (sampleAttendee "E1" None)))) eq_refl).
  - apply (proj2 (request_value_needs_ok _ (Text "name,email"))).
    eexists. split; [reflexivity|]. split; [reflexivity|]. split; [|reflexivity].
    intros (c & H & Hc). injection H as <-.
    apply includes_spec in Hc. discriminate.
Defined.

Lemma failed_response_throws_witness :
  request (Responded (failedJson 409 "Attendee was cancelled")) =
    inl (APIError 409 "Attendee was cancelled") /\
  request (Responded failedPage) = inl (APIError 503 "HTTP 503: Service Unavailable").
Proof.
  split.
  - destruct (failed_response_throws (failedJson 409 "Attendee was cancelled") eq_refl)
      as (Hbody & _).
    apply (Hbody {| valid := None; success := None; attendee := None;
                    message := Some "Attendee was cancelled" |});
      try reflexivity; try discriminate.
    exists "application/json". split; [reflexivity|]. now apply includes_spec.
  - destruct (failed_response_throws failedPage eq_refl) as (_ & Hfallback & _).
    apply Hfallback. right. left. reflexivity.
Defined.

Lemma server_message_reaches_result_witness :
  let st' := attempt "E1" "QR123" (Responded (failedJson 409 "Attendee was cancelled"))
               NetworkFailure ready in
  result st' = Some {| valid := Some false; success := None; attendee := None;
                       message := Some "Attendee was cancelled" |} /\
  toasts st' = toasts ready ++ [(ToastError, "Attendee was cancelled")].
Proof.
  apply (server_message_reaches_result "E1" "QR123" "application/json"
           "Attendee was cancelled" (failedJson 409 "Attendee was cancelled")
           {| valid := None; success := None; attendee := None;
              message := Some "Attendee was cancelled" |} NetworkFailure ready);
    try reflexivity; discriminate.
Defined.

Lemma fixed_text_for_status_witness :
  let st' := attempt "E1" "QR123" (Responded (failedJson 404 "No such code"))
               NetworkFailure ready in
  result st' = Some {| valid := Some false; success := None; attendee := None;
                       message := Some "Resource not found." |} /\
  toasts st' = toasts ready ++ [(ToastError, "Resource not found.")].
Proof.
  apply (fixed_text_for_status "E1" "QR123" (failedJson 404 "No such code")
           NetworkFailure ready); try reflexivity; try discriminate.
  right. left. reflexivity.
Defined.


Lemma camera_failure_returns_to_idle_witness :
  let st' := run [ClickStartScanning; Flush;
                  DevicesSettled (length (tasks ready)) (inl (JsError "Permission denied"));
                  Flush] ready in
  scanning st' = false /\ codeReaderRef st' = None /\ resets st' = [0] /\
  cameraError st' = Some "Permission denied".
Proof.
  destruct (camera_failure_returns_to_idle ready (inl (JsError "Permission denied"))
              (Some "Permission denied"))
    as (Hscan & _ & Href & Hresets & _ & _ & _ & _ & Herr & _).
  - reflexivity.
  - reflexivity.
  - reflexivity.
  - split; [exact Hscan|]. split; [exact Href|]. split; [exact Hresets | exact Herr].
Defined.

Lemma session_event_fixed_at_start_witness :
  let st' := run [SelectEvent "E2"; Decoded 0 (Some "QR123");
                  ApiSettled (length (tasks scanningE1))
                    (okJson (recognised (sampleAttendee "E1" None)))] scanningE1 in
  selectedEvent st' = "E2" /\
  apiLog st' = apiLog scanningE1 ++ [GET (validateEndpoint "QR123");
                                     POST (checkInEndpoint "QR123")].
Proof.
  destruct (session_event_fixed_at_start scanningE1
              {| reader := 0; device := "cam1"; sessionEvent := "E1" |} 0 "QR123" "E2"
              (okJson (recognised (sampleAttendee "E1" None)))
              (recognised (sampleAttendee "E1" None)) (sampleAttendee "E1" None))
    as (Hsel & Hlog & _); try reflexivity; try discriminate.
  split; [exact Hsel | exact Hlog].
Defined.

Lemma loading_cleared_when_idle_witness :
  let actions := [EventsSettled 0 (inr [gala]); TypeManualCode "QR123"; SubmitManual;
                  ApiSettled 0 NetworkFailure] in
  loading (run [EventsSettled 0 (inr [gala]); TypeManualCode "QR123"; SubmitManual]
             mounted) = true /\
  loading (run actions mounted) = false.
Proof.
  split; [reflexivity|].
  exact (loading_cleared_when_idle
           [EventsSettled 0 (inr [gala]); TypeManualCode "QR123"; SubmitManual;
            ApiSettled 0 NetworkFailure] eq_refl).
Defined.

Lemma manual_single_in_flight_witness :
  countIf isChecking
    (tasks (run [EventsSettled 0 (inr [gala]); TypeManualCode "QR123"; SubmitManual;
                 TypeManualCode "QR124"; SubmitManual] mounted)) <= 1.
Proof.
  apply (manual_single_in_flight
           [EventsSettled 0 (inr [gala]); TypeManualCode "QR123"; SubmitManual;
            TypeManualCode "QR124"; SubmitManual]).
  repeat constructor.
Defined.

Lemma toast_ids_unique_witness :
  NoDup (map UseToast.id (UseToast.toasts (UseToast.run sampleToasts UseToast.empty))).
Proof.
  apply (toast_ids_unique sampleToasts). vm_compute. discriminate.
Defined.

Lemma closeToast_removes_exactly_witness :
  let s := UseToast.run sampleToasts UseToast.empty in
  map UseToast.id (UseToast.toasts s) = ["toast-3"; "toast-4"] /\
  map UseToast.id (UseToast.toasts (UseToast.closeToast "toast-3" s)) = ["toast-4"].
Proof.
  split; [reflexivity|].
  destruct (closeToast_removes_exactly sampleToasts []
              [{| UseToast.id := "toast-4"; UseToast.type := ToastError;
                  UseToast.title := "Wrong event"; UseToast.message := None;
                  UseToast.duration := None |}]
              {| UseToast.id := "toast-3"; UseToast.type := ToastSuccess;
                 UseToast.title := "Check-in successful!"; UseToast.message := None;
                 UseToast.duration := None |})
    as (Hclosed & _); [vm_compute; discriminate | reflexivity |].
  cbn [UseToast.id] in Hclosed. rewrite Hclosed. reflexivity.
Defined.

Lemma middleware_redirects_witness :
  middleware "/attendees/42" None = RedirectTo "/login" /\
  middleware "/login" None = NextResponse.
Proof.
  split; [reflexivity|].
  exact (proj2 (middleware_redirects "/attendees/42" "/login" None eq_refl)).
Defined.

Lemma protected_routes_need_token_witness :
  middleware "/attendees/42" None = RedirectTo "/login" /\
  middleware "/attendees/42" (Some "jwt") = NextResponse.
Proof.
  destruct (protected_routes_need_token "/attendees" "42" "/attendees/42")
    as (Hnone & _ & Hsome).
  - right. left. reflexivity.
  - right. reflexivity.
  - split; [exact Hnone|]. apply Hsome. discriminate.
Defined.

Lemma attempt_always_ends_in_result_witness :
  exists r kind title,
    result shownFailure = Some r /\
    toasts shownFailure = toasts ready ++ [(kind, title)] /\
    loading shownFailure = false.
Proof.
  destruct (attempt_always_ends_in_result "E1" "QR123" NetworkFailure NetworkFailure ready)
    as (r & kind & title & Hr & Ht & Hl & _); try discriminate.
  exists r, kind, title. split; [exact Hr|]. split; [exact Ht | exact Hl].
Defined.


Lemma only_camera_failures_escape_witness :
  uncaught (run [EventsSettled 0 (inl (JsError "offline")); ClickStartScanning; Flush;
                 DevicesSettled 0 (inl (JsError "Permission denied")); Flush;
                 TypeManualCode "QR123"; SubmitManual; ApiSettled 0 NetworkFailure]
              mounted) = [].
Proof.
  apply (only_camera_failures_escape
           [EventsSettled 0 (inl (JsError "offline")); ClickStartScanning; Flush;
            DevicesSettled 0 (inl (JsError "Permission denied")); Flush;
            TypeManualCode "QR123"; SubmitManual; ApiSettled 0 NetworkFailure] mounted).
  repeat constructor.
Defined.
